(** * Contrib/hit_likeness/physchem_calc.py

    A shallow embedding of the descriptor script: the line reader
    [read_smi], the descriptor calculator [calc] over an abstract
    chemistry toolkit, and the dispatcher of [__main__] over a model of
    the ordered parallel map of the process pool. *)

From Stdlib Require Import ZArith NArith Ascii String DecimalString.
From stdpp Require Import base tactics option list numbers gmap.

Local Open Scope Z_scope.

(** ** Python values the script handles *)

(** A Python [str] is a sequence of Unicode code points. *)
Definition char := N.
Definition str := list char.

(** Literals: the code points of an ASCII text. *)
Definition u (s : string) : str := N_of_ascii <$> list_ascii_of_string s.

Definition TAB : char := 9%N.
Definition LF : char := 10%N.
Definition CR : char := 13%N.

(** The exceptions that the script can meet. *)
Inductive exn :=
  | IndexError
  | ValueError
  | StopIteration
  | RuntimeError
  | ZeroDivisionError.

#[global] Instance exn_eq_dec : EqDecision exn.
Proof. solve_decision. Defined.

(** A computation that either raises or returns. *)
Definition result (A : Type) := (exn + A)%type.
Definition raise {A} (e : exn) : result A := inl e.
Definition ret {A} (a : A) : result A := inr a.

Definition bind {A B} (m : result A) (k : A -> result B) : result B :=
  match m with
  | inl e => inl e
  | inr a => k a
  end.

Notation "x <-! m ; k" := (bind m (fun x => k))
  (at level 100, m at next level, right associativity).

(** ** [str.strip] and [str.split] *)

Module PyStr.

(** [str.isspace] of one code point: the table of CPython's
    [_PyUnicode_IsWhitespace]. *)
Definition isspace (c : char) : bool :=
  ((9 <=? c) && (c <=? 13)
   || (28 <=? c) && (c <=? 32)
   || (c =? 133) || (c =? 160) || (c =? 5760)
   || (8192 <=? c) && (c <=? 8202)
   || (c =? 8232) || (c =? 8233) || (c =? 8239)
   || (c =? 8287) || (c =? 12288))%N.

Fixpoint lstrip (s : str) : str :=
  match s with
  | [] => []
  | c :: s' => if isspace c then lstrip s' else s
  end.

Definition rstrip (s : str) : str := reverse (lstrip (reverse s)).

(** [s.strip()] *)
Definition strip (s : str) : str := rstrip (lstrip s).

(** [s.split()] and [s.split(None)]: the maximal runs of characters
    that are not whitespace; [cur] is the run being read, reversed. *)
Fixpoint split_ws_from (cur : str) (s : str) : list str :=
  match s with
  | [] => match cur with [] => [] | _ => [reverse cur] end
  | c :: s' =>
      if isspace c
      then match cur with
           | [] => split_ws_from [] s'
           | _ => reverse cur :: split_ws_from [] s'
           end
      else split_ws_from (c :: cur) s'
  end.

Definition split_ws (s : str) : list str := split_ws_from [] s.

Fixpoint startswith (p s : str) : bool :=
  match p, s with
  | [], _ => true
  | _ :: _, [] => false
  | a :: p', b :: s' => (a =? b)%N && startswith p' s'
  end.

(** [s.split(sep)] for a non-empty [sep]: the text is cut at every
    occurrence of [sep], found from left to right without overlap.
    [skip] counts the characters of a separator still to be passed. *)
Fixpoint split_sep_from (sep : str) (skip : nat) (cur : str) (s : str)
  : list str :=
  match s with
  | [] => [reverse cur]
  | c :: s' =>
      match skip with
      | S k => split_sep_from sep k cur s'
      | O =>
          if startswith sep s
          then reverse cur :: split_sep_from sep (length sep - 1) [] s'
          else split_sep_from sep 0 (c :: cur) s'
      end
  end.

Definition split_sep (sep s : str) : list str := split_sep_from sep 0 [] s.

(** [s.split(sep)] with [sep] as the script passes it: [None] splits
    on whitespace, an empty separator is refused. *)
Definition split (sep : option str) (s : str) : result (list str) :=
  match sep with
  | None => ret (split_ws s)
  | Some [] => raise ValueError
  | Some sp => ret (split_sep sp s)
  end.

(** [sep.join(parts)] *)
Fixpoint join (sep : str) (parts : list str) : str :=
  match parts with
  | [] => []
  | [p] => p
  | p :: ps => p ++ sep ++ join sep ps
  end.

(** [str(z)] of an integer. *)
Definition of_int (z : Z) : str := u (NilZero.string_of_int (Z.to_int z)).

End PyStr.

(** ** The reader: [read_smi] *)

(** What the reader yields for one line: the pair [(items[0], items[0])]
    or [(items[0], items[1])]. The consumer [calc_mp] unpacks the pair
    into the parameters [smi] and [name] of [calc], in this order. *)
Definition record := (str * str)%type.

Definition rec_smi (r : record) : str := fst r.
Definition rec_name (r : record) : str := snd r.

(** Lines 54-57: the selection among the fields; [items[0]] of an empty
    list raises [IndexError]. *)
Definition items_record (items : list str) : result record :=
  match items with
  | [] => raise IndexError
  | [a] => ret (a, a)
  | a :: b :: _ => ret (a, b)
  end.

(** Lines 53-57 for one line inside the window. *)
Definition line_record (sep : option str) (line : str) : result record :=
  items <-! PyStr.split sep (PyStr.strip line); items_record items.

(** How an iteration ends: the loop runs out, or an exception leaves it. *)
Inductive ending :=
  | Finished
  | Raised (e : exn).

#[global] Instance ending_eq_dec : EqDecision ending.
Proof. solve_decision. Defined.

(** [i < end_pos], where [None] stands for [float("inf")]. *)
Definition before_end (i : Z) (end_pos : option Z) : bool :=
  match end_pos with
  | None => true
  | Some e => i <? e
  end.

(** Lines 50-59: the loop over [enumerate(f)], started at index [i] on
    the lines still unread. The value is the list of yielded records and
    the way the body of the generator ends. *)
Fixpoint read_smi_loop (sep : option str) (start_pos : Z) (end_pos : option Z)
    (i : Z) (lines : list str) : list record * ending :=
  match lines with
  | [] => ([], Finished)
  | line :: rest =>
      if start_pos <=? i then
        if before_end i end_pos then
          match line_record sep line with
          | inl e => ([], Raised e)
          | inr r =>
              let '(rs, e) := read_smi_loop sep start_pos end_pos (i + 1) rest in
              (r :: rs, e)
          end
        else ([], Raised StopIteration)
      else read_smi_loop sep start_pos end_pos (i + 1) rest
  end.

(** The generator protocol around the body. With [generator_stop]
    (PEP 479: optional from Python 3.5, the rule from Python 3.7) a
    [StopIteration] raised inside the body reaches the consumer as
    [RuntimeError]; without it the consumer sees the iteration end. *)
Definition generator_exit (generator_stop : bool) (e : ending) : ending :=
  match e with
  | Raised StopIteration => if generator_stop then Raised RuntimeError else Finished
  | _ => e
  end.

(** [read_smi(fname, sep, start_pos, nlines)], iterated to its end; the
    file is given by the lines that iterating over it produces. *)
Definition read_smi (generator_stop : bool) (f : list str) (sep : option str)
    (start_pos : Z) (nlines : option Z) : list record * ending :=
  let start_pos := start_pos - 1 in
  let end_pos :=
    match nlines with
    | Some n => Some (start_pos + n)
    | None => None
    end in
  let '(rs, e) := read_smi_loop sep start_pos end_pos 0 f in
  (rs, generator_exit generator_stop e).

(** ** Command line *)

(** The options as given on the command line; [None] is an omitted flag.
    Numbers stand for the texts that [int] accepts. *)
Record cli := {
  opt_sep : option str;
  opt_startpos : option Z;
  opt_lines : option Z;
  opt_ncpu : option Z;
  opt_verbose : bool
}.

(** The values after lines 82-90. *)
Record args := {
  sep : option str;
  start_pos : Z;
  nlines : option Z;
  ncpu : Z;
  verbose : bool
}.

(** The [default=] of the [-p/--startpos] argument, line 73. *)
Definition startpos_default : Z := 0.
Definition ncpu_default : Z := 1.

Definition parse_args (c : cli) : args :=
  {| sep := opt_sep c;
     start_pos := default startpos_default (opt_startpos c);
     nlines := opt_lines c;
     ncpu := default ncpu_default (opt_ncpu c);
     verbose := opt_verbose c |}.

(** ** The chemistry toolkit, taken as an interface *)

(** Python floats: rounding to a number of decimals, true division of
    integers by a divisor that is not zero, and [str]. *)
Class Floats := {
  float : Type;
  round : float -> Z -> float;
  truediv : Z -> Z -> float;
  str_float : float -> str
}.

(** The functions of the toolkit that [calc] calls, as total functions
    on parsed molecules; [MolFromSmiles] gives [None] on a parse
    failure. *)
Class Toolkit `{Floats} := {
  Mol : Type;
  MolFromSmiles : str -> option Mol;
  CalcNumHBA : Mol -> Z;
  CalcNumHBD : Mol -> Z;
  CalcNumRings : Mol -> Z;
  CalcNumRotatableBonds : Mol -> Z;
  CalcTPSA : Mol -> float;
  CalcCrippenDescriptors : Mol -> float * float;
  CalcMolWt : Mol -> float;
  CalcFractionCSP3 : Mol -> float;
  GetScaffoldForMol : Mol -> Mol;
  GetNumHeavyAtoms : Mol -> Z;
  qed : Mol -> float
}.

(** The members of the tuple that [calc] returns. *)
Inductive value `{Floats} :=
  | VStr (s : str)
  | VInt (z : Z)
  | VFloat (x : float).

Definition descriptor_names : list str :=
  [u "HBA"; u "HBD"; u "complexity"; u "NumRings"; u "RTB"; u "TPSA";
   u "logP"; u "MR"; u "MW"; u "Csp3"; u "fmf"; u "qed"].

Section Calc.
Context `{Toolkit}.

(** [a / b] on integers. *)
Definition py_truediv (a b : Z) : result float :=
  if b =? 0 then raise ZeroDivisionError else ret (truediv a b).

(** Line 30. *)
Definition fmf_of (m : Mol) : result float :=
  py_truediv (GetNumHeavyAtoms (GetScaffoldForMol m)) (GetNumHeavyAtoms m).

(** The text of line 35. *)
Definition parse_message (smi name : str) : str :=
  u "smiles " ++ smi ++ u " cannot be parsed (" ++ name ++ u ")".

(** [calc(smi, name)]: what it returns or raises, and the texts it
    writes to [sys.stderr], one per call of [write]. *)
Definition calc (smi name : str) : result (option (list value)) * list str :=
  match MolFromSmiles smi with
  | Some m =>
      let hba := CalcNumHBA m in
      let hbd := CalcNumHBD m in
      let nrings := CalcNumRings m in
      let rtb := CalcNumRotatableBonds m in
      let psa := CalcTPSA m in
      let '(logp, mr) := CalcCrippenDescriptors m in
      let mw := CalcMolWt m in
      let csp3 := CalcFractionCSP3 m in
      (fmf <-! fmf_of m;
       let qed := qed m in
       ret (Some [VStr name; VInt hba; VInt hbd; VInt (hba + hbd);
                  VInt nrings; VInt rtb;
                  VFloat (round psa 2); VFloat (round logp 2);
                  VFloat (round mr 2); VFloat (round mw 2);
                  VFloat (round csp3 3); VFloat (round fmf 3);
                  VFloat (round qed 3)]),
       [])
  | None => (ret None, [parse_message smi name])
  end.

Definition calc_mp (items : record) : result (option (list value)) * list str :=
  calc items.1 items.2.

(** [str] of a member of the tuple. *)
Definition str_value (v : value) : str :=
  match v with
  | VStr s => s
  | VInt z => PyStr.of_int z
  | VFloat x => str_float x
  end.

(** Line 95 and line 98: the texts written to the output file. *)
Definition header : str := PyStr.join [TAB] (u "Name" :: descriptor_names) ++ [LF].
Definition row (res : list value) : str :=
  PyStr.join [TAB] (str_value <$> res) ++ [LF].

(** [if res:] *)
Definition truthy (res : option (list value)) : bool :=
  match res with
  | Some (_ :: _) => true
  | _ => false
  end.

End Calc.

(** ** The process pool: [Pool.imap] *)

(** A model of [multiprocessing.Pool.imap]: the tasks are numbered in the
    order of the input and handed to the worker processes in that order;
    the workers finish in an order that the program does not control; the
    result iterator ([IMapIterator]) puts the results back in the order
    of the numbers. *)
Module Pool.
Section Pool.
Context {T R : Type}.

(** The fields [_index], [_unsorted] and [_items] of the iterator. *)
Record iterator := {
  it_index : nat;
  it_unsorted : gmap nat R;
  it_items : list R
}.

Definition iterator_init : iterator :=
  {| it_index := 0; it_unsorted := ∅; it_items := [] |}.

(** The [while self._index in self._unsorted] loop of [_set]; every
    round removes a key, so the size of the map bounds the rounds. *)
Fixpoint flush (fuel : nat) (it : iterator) : iterator :=
  match fuel with
  | O => it
  | S fuel' =>
      match it_unsorted it !! it_index it with
      | Some obj =>
          flush fuel' {| it_index := S (it_index it);
                         it_unsorted := delete (it_index it) (it_unsorted it);
                         it_items := it_items it ++ [obj] |}
      | None => it
      end
  end.

(** [IMapIterator._set(i, obj)]: the result with the awaited number is
    passed on, with the stored ones that follow it; another one is
    stored under its number. *)
Definition iterator_set (i : nat) (obj : R) (it : iterator) : iterator :=
  if decide (it_index it = i) then
    flush (size (it_unsorted it))
          {| it_index := S (it_index it);
             it_unsorted := it_unsorted it;
             it_items := it_items it ++ [obj] |}
  else
    {| it_index := it_index it;
       it_unsorted := <[i := obj]> (it_unsorted it);
       it_items := it_items it |}.

Definition numbered (tasks : list T) : list (nat * T) :=
  zip (seq 0 (length tasks)) tasks.

(** The order in which the tasks finish. [busy] holds the tasks being
    worked on, at most one per worker, [queue] the tasks not yet taken.
    At each step the schedule picks which busy worker finishes (the
    pick is taken modulo their number, a schedule that ends picks the
    first); that worker takes the next task of the queue. *)
Fixpoint completions (steps : nat) (sched : list nat)
    (busy queue : list (nat * T)) : list (nat * T) :=
  match steps with
  | O => []
  | S steps' =>
      let k := (hd 0%nat sched `mod` length busy)%nat in
      match busy !! k with
      | Some t =>
          t :: completions steps' (tl sched)
                 (delete k busy ++ take 1 queue) (drop 1 queue)
      | None => []
      end
  end.

(** [list(pool.imap(func, tasks))] on [workers] processes, under a
    schedule. *)
Definition imap (workers : nat) (sched : list nat) (func : T -> R)
    (tasks : list T) : list R :=
  let order :=
    completions (length tasks) sched
      (take workers (numbered tasks)) (drop workers (numbered tasks)) in
  it_items
    (foldl (fun it '(i, t) => iterator_set i (func t) it) iterator_init order).

End Pool.
Arguments iterator : clear implicits.
End Pool.

(** ** The dispatcher: [__main__] *)

Section Main.
Context `{Toolkit}.

(** A task of the pool: a batch of records for [mapstar(calc_mp, batch)],
    or the exception that the reader raised, to be raised again when
    the consumer reaches it. *)
Inductive task :=
  | Batch (chunk : list record)
  | Reraise (e : exn).

(** The tasks made from the reader, [chunksize] records at a time
    ([itertools.islice]); [cur] is the batch being filled, reversed,
    [room] the records it still takes. When the reader raises, the
    batch being filled is lost with it. *)
Fixpoint get_tasks (size room : nat) (cur : list record)
    (rs : list record) (e : ending) : list task :=
  match rs with
  | [] =>
      match e with
      | Finished => match cur with [] => [] | _ => [Batch (reverse cur)] end
      | Raised x => [Reraise x]
      end
  | r :: rs' =>
      match room with
      | 0%nat | 1%nat => Batch (reverse (r :: cur)) :: get_tasks size size [] rs' e
      | S k => get_tasks size k (r :: cur) rs' e
      end
  end.

Definition chunksize : nat := 100.

Definition task_batches (gen : list record * ending) : list task :=
  get_tasks chunksize chunksize [] gen.1 gen.2.

(** [list(map(calc_mp, chunk))] in a worker: the first exception ends
    the batch. *)
Fixpoint mapstar (chunk : list record) : result (list (option (list value))) :=
  match chunk with
  | [] => ret []
  | r :: chunk' =>
      x <-! (calc_mp r).1;
      xs <-! mapstar chunk';
      ret (x :: xs)
  end.

Definition run_task (t : task) : result (list (option (list value))) :=
  match t with
  | Batch chunk => mapstar chunk
  | Reraise e => raise e
  end.

(** The text of line 100. *)
Definition progress_message (n : Z) : str :=
  [CR] ++ PyStr.of_int n ++ u " molecules passed".

(** Lines 97-101 for the results of one batch; [i] is the number of
    the first of them. The value is the rows written to the output file
    and the texts written to [sys.stderr]. *)
Fixpoint write_items (verbose : bool) (i : Z)
    (items : list (option (list value))) : list str * list str :=
  match items with
  | [] => ([], [])
  | res :: items' =>
      let '(rows, msgs) := write_items verbose (i + 1) items' in
      ((if truthy res then [row (default [] res)] else []) ++ rows,
       (if verbose && ((i + 1) `mod` 1000 =? 0)
        then [progress_message (i + 1)] else []) ++ msgs)
  end.

(** The loop of line 96 over the results in the order of the iterator;
    an exception kept as the result of a task is raised when the loop
    reaches it. *)
Fixpoint main_loop (verbose : bool) (i : Z)
    (results : list (result (list (option (list value)))))
  : list str * list str * ending :=
  match results with
  | [] => ([], [], Finished)
  | inl e :: _ => ([], [], Raised e)
  | inr items :: results' =>
      let '(rows1, msgs1) := write_items verbose i items in
      let '(rows2, msgs2, e) :=
        main_loop verbose (i + Z.of_nat (length items)) results' in
      (rows1 ++ rows2, msgs1 ++ msgs2, e)
  end.

(** A run of the script: the output file as the list of the texts
    written to it ([None]: never opened), the progress texts, and how
    the run ends. *)
Record run := {
  out_file : option (list str);
  progress : list str;
  status : ending
}.

(** Lines 92-101. [cpu_count] is the number of cores of the machine,
    [sched] the order in which the workers happen to finish, [f] the
    lines of the input file. A pool of less than one process is
    refused with [ValueError] before the output file is opened. *)
Definition main (generator_stop : bool) (cpu_count : Z) (sched : list nat)
    (a : args) (f : list str) : run :=
  let processes := Z.min (ncpu a) cpu_count in
  if processes <? 1 then
    {| out_file := None; progress := []; status := Raised ValueError |}
  else
    let gen := read_smi generator_stop f (sep a) (start_pos a) (nlines a) in
    let results :=
      Pool.imap (Z.to_nat processes) sched run_task (task_batches gen) in
    let '(rows, msgs, e) := main_loop (verbose a) 0 results in
    {| out_file := Some (header :: rows); progress := msgs; status := e |}.

End Main.

(** ** The window of lines, as the documentation describes it *)

(** The lines numbered from [p] (counting from 1) to [p + l - 1], or to
    the end of the file when no count is given. *)
Definition window_lines (p : Z) (l : option Z) (f : list str) : list str :=
  let rest := drop (Z.to_nat (p - 1)) f in
  match l with
  | None => rest
  | Some n => take (Z.to_nat n) rest
  end.

(** No line of the file comes after the window. *)
Definition ends_in_window (p : Z) (l : option Z) (f : list str) : bool :=
  match l with
  | None => true
  | Some n => (length f <=? Z.to_nat (p - 1) + Z.to_nat n)%nat
  end.

(** The line at index [i] (counting from 0) lies in the window. *)
Definition in_window (p : Z) (l : option Z) (i : nat) : bool :=
  (p - 1 <=? Z.of_nat i)
  && before_end (Z.of_nat i)
       match l with
       | Some n => Some (p - 1 + n)
       | None => None
       end.

(** A line of whitespace only. *)
Definition blank (s : str) : Prop := Forall (fun c => PyStr.isspace c = true) s.

(** The arguments with another value of [-c/--ncpu]. *)
Definition set_ncpu (n : Z) (a : args) : args :=
  {| sep := sep a; start_pos := start_pos a; nlines := nlines a;
     ncpu := n; verbose := verbose a |}.

(** The records of a list of lines, when each line gives one. *)
Fixpoint records_of (sep : option str) (lines : list str) : result (list record) :=
  match lines with
  | [] => ret []
  | line :: rest =>
      r <-! line_record sep line;
      rs <-! records_of sep rest;
      ret (r :: rs)
  end.

(** The records of which the toolkit parses the structure. *)
Definition parsed `{Toolkit} (r : record) : bool :=
  match MolFromSmiles (rec_smi r) with
  | Some _ => true
  | None => false
  end.

(** ** A small toolkit to run the script on *)

(** A table of three molecules stands in for the toolkit, and decimal
    numbers with six places for the floats, so that the functions above
    can be evaluated on concrete files. The hydrogen molecule is parsed
    and has no heavy atom. *)
Module Standin.

(** Millionths. *)
Definition round6 (x n : Z) : Z :=
  let q := 10 ^ (6 - n) in (x + q / 2) / q * q.

#[global] Instance floats : Floats := {|
  float := Z;
  round := round6;
  truediv := fun a b => a * 1000000 / b;
  str_float := fun x => PyStr.of_int x ++ u "e-06"
|}.

Record mol := {
  heavy : Z; scaffold_heavy : Z;
  hba : Z; hbd : Z; rings : Z; rtb : Z;
  tpsa : Z; logp : Z; mr : Z; mw : Z; csp3 : Z; qed_score : Z
}.

Definition ethanol : mol :=
  {| heavy := 3; scaffold_heavy := 0; hba := 1; hbd := 1; rings := 0; rtb := 0;
     tpsa := 20230000; logp := -1400; mr := 12759800; mw := 46069000;
     csp3 := 1000000; qed_score := 406808 |}.

Definition benzene : mol :=
  {| heavy := 6; scaffold_heavy := 6; hba := 0; hbd := 0; rings := 1; rtb := 0;
     tpsa := 0; logp := 1686600; mr := 26442000; mw := 78114000;
     csp3 := 0; qed_score := 442628 |}.

Definition hydrogen : mol :=
  {| heavy := 0; scaffold_heavy := 0; hba := 0; hbd := 0; rings := 0; rtb := 0;
     tpsa := 0; logp := 235000; mr := 0; mw := 2016000;
     csp3 := 0; qed_score := 0 |}.

Definition scaffold (m : mol) : mol :=
  {| heavy := scaffold_heavy m; scaffold_heavy := scaffold_heavy m;
     hba := 0; hbd := 0; rings := rings m; rtb := 0;
     tpsa := 0; logp := 0; mr := 0; mw := 0; csp3 := 0; qed_score := 0 |}.

Definition table : list (str * mol) :=
  [(u "CCO", ethanol); (u "c1ccccc1", benzene); (u "[H][H]", hydrogen)].

Fixpoint find (smi : str) (t : list (str * mol)) : option mol :=
  match t with
  | [] => None
  | (s, m) :: t' => if decide (s = smi) then Some m else find smi t'
  end.

#[global] Instance toolkit : Toolkit := {|
  Mol := mol;
  MolFromSmiles := fun smi => find smi table;
  CalcNumHBA := hba;
  CalcNumHBD := hbd;
  CalcNumRings := rings;
  CalcNumRotatableBonds := rtb;
  CalcTPSA := tpsa;
  CalcCrippenDescriptors := fun m => (logp m, mr m);
  CalcMolWt := mw;
  CalcFractionCSP3 := csp3;
  GetScaffoldForMol := scaffold;
  GetNumHeavyAtoms := heavy;
  qed := qed_score
|}.

(** A file of five lines; the third has its fields separated by
    several blanks. *)
Definition five_lines : list str :=
  [u "CCO" ++ [TAB] ++ u "ethanol" ++ [LF];
   u "c1ccccc1" ++ [TAB] ++ u "benzene" ++ [LF];
   u "CCO   spirit" ++ [LF];
   u "c1ccccc1" ++ [LF];
   u "C1CC" ++ [TAB] ++ u "broken" ++ [LF]].

Definition no_flags : cli :=
  {| opt_sep := None; opt_startpos := None; opt_lines := None;
     opt_ncpu := None; opt_verbose := false |}.

End Standin.

(** * Properties *)

#[local] Set Warnings "-clear-no-such-hyp".

(** ** Evaluations *)

Example strip_ex : PyStr.strip (u "  CCO " ++ [TAB; LF]) = u "CCO".
Proof. reflexivity. Qed.

Example split_ws_ex :
  PyStr.split None (u " CCO" ++ [TAB; TAB] ++ u "ethanol  x ")
  = ret [u "CCO"; u "ethanol"; u "x"].
Proof. reflexivity. Qed.

Example split_sep_ex :
  PyStr.split (Some (u ", ")) (u "a, b,, c, ") = ret [u "a"; u "b,"; u "c"; u ""].
Proof. reflexivity. Qed.

Example split_empty_ex :
  PyStr.split None [] = ret [] /\ PyStr.split (Some [TAB]) [] = ret [[]].
Proof. split; reflexivity. Qed.

Example of_int_ex : PyStr.of_int 0 = u "0" /\ PyStr.of_int (-12) = u "-12".
Proof. split; reflexivity. Qed.

Example imap_ex :
  Pool.imap 3 [2; 0; 1; 1; 0]%nat (fun x : nat => (x * x)%nat) [1; 2; 3; 4; 5; 6]%nat
  = [1; 4; 9; 16; 25; 36]%nat.
Proof. vm_compute. reflexivity. Qed.

Example completions_ex :
  Pool.completions 4 [2; 0; 1]%nat
    (take 3 (Pool.numbered [10; 20; 30; 40]%nat))
    (drop 3 (Pool.numbered [10; 20; 30; 40]%nat))
  = [(2, 30); (0, 10); (3, 40); (1, 20)]%nat.
Proof. vm_compute. reflexivity. Qed.

Example read_ex :
  read_smi false Standin.five_lines None 3 (Some 2)
  = ([(u "CCO", u "spirit"); (u "c1ccccc1", u "c1ccccc1")], Finished).
Proof. vm_compute. reflexivity. Qed.

Example read_generator_stop_ex :
  read_smi true Standin.five_lines None 3 (Some 2)
  = ([(u "CCO", u "spirit"); (u "c1ccccc1", u "c1ccccc1")], Raised RuntimeError).
Proof. vm_compute. reflexivity. Qed.

Example calc_ex :
  (calc (u "CCO") (u "ethanol")).1
  = ret (Some [VStr (u "ethanol"); VInt 1; VInt 1; VInt 2; VInt 0; VInt 0;
               VFloat 20230000; VFloat 0; VFloat 12760000; VFloat 46070000;
               VFloat 1000000; VFloat 0; VFloat 407000]).
Proof. vm_compute. reflexivity. Qed.

Example main_ex :
  out_file (main false 4 [1; 0]%nat (parse_args Standin.no_flags)
              (take 2 Standin.five_lines))
  = Some [header;
          row [VStr (u "ethanol"); VInt 1; VInt 1; VInt 2; VInt 0; VInt 0;
               VFloat 20230000; VFloat 0; VFloat 12760000; VFloat 46070000;
               VFloat 1000000; VFloat 0; VFloat 407000];
          row [VStr (u "benzene"); VInt 0; VInt 0; VInt 0; VInt 1; VInt 0;
               VFloat 0; VFloat 1690000; VFloat 26440000; VFloat 78110000;
               VFloat 0; VFloat 1000000; VFloat 443000]].
Proof. vm_compute. reflexivity. Qed.

(** ** The pool puts the results in the order of the input *)

Section PoolFacts.
Context {T R : Type} (func : T -> R).
Implicit Types (it : Pool.iterator R) (tasks : list T) (D : gset nat).

Import Pool.

(** The state of the iterator while the stored results are passed on:
    [D] is the set of the numbers of the finished tasks. *)
Record flushing tasks D it : Prop := {
  fl_below : forall j, (j < it_index it)%nat -> j ∈ D;
  fl_stored : forall j r,
    it_unsorted it !! j = Some r <->
    j ∈ D /\ (it_index it <= j)%nat /\ func <$> tasks !! j = Some r;
  fl_items : it_items it = func <$> take (it_index it) tasks
}.

(** The state of the iterator between two calls of [_set]. *)
Record settled tasks D it : Prop := {
  st_flushing : flushing tasks D it;
  st_awaited : it_index it ∉ D
}.

Lemma flush_flushing tasks D fuel it :
  flushing tasks D it ->
  (size (it_unsorted it) <= fuel)%nat ->
  flushing tasks D (flush fuel it)
  /\ it_unsorted (flush fuel it) !! it_index (flush fuel it) = None.
Proof.
  revert it. induction fuel as [|fuel IH]; intros it Hfl Hsz; simpl.
  - split; [done|].
    assert (it_unsorted it = ∅) as ->
      by (apply map_size_empty_inv; lia).
    apply lookup_empty.
  - destruct (it_unsorted it !! it_index it) as [obj|] eqn:Hobj; [|done].
    apply IH.
    + destruct Hfl as [Hb Hs Hi].
      pose proof (proj1 (Hs _ _) Hobj) as (HD & _ & Hres).
      constructor; simpl.
      * intros j Hj. destruct (decide (j = it_index it)) as [->|]; [done|].
        apply Hb. lia.
      * intros j r. rewrite lookup_delete. case_decide as Hij.
        -- split; [done|]. intros (_ & ? & _). lia.
        -- rewrite Hs. split; intros (? & ? & ?); split_and!; auto; lia.
      * rewrite Hi. destruct (tasks !! it_index it) as [t|] eqn:Ht; [|done].
        simpl in Hres. injection Hres as <-.
        by rewrite (take_S_r _ _ _ Ht), fmap_app.
    + simpl. rewrite map_size_delete_Some by eauto. lia.
Qed.

Lemma flushing_settled tasks D it :
  (forall j, j ∈ D -> (j < length tasks)%nat) ->
  flushing tasks D it ->
  it_unsorted it !! it_index it = None ->
  settled tasks D it.
Proof.
  intros Hbound Hfl Hnone. split; [done|]. intros HD.
  destruct (lookup_lt_is_Some_2 tasks (it_index it) (Hbound _ HD)) as [t Ht].
  assert (it_unsorted it !! it_index it = Some (func t)) as Hsome.
  { apply (fl_stored _ _ _ Hfl). rewrite Ht. by split_and!. }
  congruence.
Qed.

Lemma iterator_set_settled tasks D it i t :
  (forall j, j ∈ D -> (j < length tasks)%nat) ->
  settled tasks D it ->
  tasks !! i = Some t ->
  i ∉ D ->
  settled tasks ({[i]} ∪ D) (iterator_set i (func t) it).
Proof.
  intros Hbound [[Hb Hs Hi] Haw] Ht HiD.
  assert (forall j, j ∈ ({[i]} ∪ D : gset nat) -> (j < length tasks)%nat) as Hbound'.
  { intros j [->%elem_of_singleton|?]%elem_of_union; [|by auto].
    by eapply lookup_lt_Some. }
  unfold iterator_set. case_decide as Hidx.
  - subst i.
    assert (flushing tasks ({[it_index it]} ∪ D)
              {| it_index := S (it_index it);
                 it_unsorted := it_unsorted it;
                 it_items := it_items it ++ [func t] |}) as Hfl.
    { constructor; simpl.
      - intros j Hj. destruct (decide (j = it_index it)) as [->|].
        + by apply elem_of_union_l, elem_of_singleton.
        + apply elem_of_union_r, Hb. lia.
      - intros j r. rewrite Hs. split.
        + intros (HjD & ? & ?).
          assert (j <> it_index it) by (by intros ->).
          split_and!; [by apply elem_of_union_r | lia | done].
        + intros ([->%elem_of_singleton|?]%elem_of_union & ? & ?);
            [lia | split_and!; [done | lia | done]].
      - by rewrite Hi, (take_S_r _ _ _ Ht), fmap_app. }
    apply (flush_flushing _ _ (size (it_unsorted it))) in Hfl as [Hfl Hnone];
      [|done].
    by apply flushing_settled.
  - assert (it_index it < i)%nat as Hlt.
    { destruct (decide (i < it_index it)%nat) as [Hlt|]; [|lia].
      by apply Hb in Hlt. }
    split; [constructor; simpl|simpl; set_solver].
    + intros j Hj. apply elem_of_union_r. by apply Hb.
    + intros j r. rewrite lookup_insert. case_decide as Hij.
      * subst j. rewrite Ht. simpl. split.
        -- intros [= <-]. split_and!; [set_solver | lia | done].
        -- by intros (_ & _ & ?).
      * rewrite Hs. split; intros (? & ? & ?); split_and!; auto; set_solver.
    + done.
Qed.

Lemma foldl_set_settled tasks (order : list (nat * T)) D it :
  (forall j, j ∈ D -> (j < length tasks)%nat) ->
  settled tasks D it ->
  (forall i t, (i, t) ∈ order -> tasks !! i = Some t /\ i ∉ D) ->
  NoDup order.*1 ->
  settled tasks (list_to_set order.*1 ∪ D)
    (foldl (fun it '(i, t) => iterator_set i (func t) it) it order).
Proof.
  revert D it. induction order as [|[i t] order IH]; intros D it Hbound Hst Hin Hnd.
  - simpl. by rewrite (left_id_L ∅ (∪)).
  - rewrite fmap_cons in Hnd |- *. cbn [foldl fst] in Hnd |- *.
    apply NoDup_cons in Hnd as [Hi Hnd].
    destruct (Hin i t) as [Ht HiD]; [by left|].
    rewrite list_to_set_cons, <- (assoc_L (∪)), (comm_L (∪) {[i]}),
      <- (assoc_L (∪)), (comm_L (∪) D).
    apply IH; [| by apply iterator_set_settled | | done].
    + intros j [->%elem_of_singleton|?]%elem_of_union; [|by auto].
      by eapply lookup_lt_Some.
    + intros j t' Hj. destruct (Hin j t') as [? ?]; [by right|]. split; [done|].
      intros [Hji%elem_of_singleton|?]%elem_of_union; [|done].
      subst j. apply Hi. apply list_elem_of_fmap. by exists (i, t').
Qed.

Lemma numbered_lookup tasks i t :
  (i, t) ∈ numbered tasks <-> tasks !! i = Some t.
Proof.
  unfold numbered. rewrite list_elem_of_lookup. split.
  - intros [k Hk]. rewrite lookup_zip_with in Hk.
    destruct (seq 0 (length tasks) !! k) as [j|] eqn:Hj; [|done]. simpl in Hk.
    destruct (tasks !! k) as [t'|] eqn:Ht'; [|done]. simpl in Hk.
    injection Hk as <- <-. apply lookup_seq in Hj as [-> _]. done.
  - intros Ht. exists i. rewrite lookup_zip_with.
    rewrite (lookup_seq_lt 0 (length tasks) i) by (by eapply lookup_lt_Some).
    simpl. by rewrite Ht.
Qed.

Lemma numbered_fst tasks : (numbered tasks).*1 = seq 0 (length tasks).
Proof. unfold numbered. apply fst_zip. by rewrite length_seq. Qed.

(** Whatever the order in which the numbered results arrive, the
    iterator hands them out in the order of the numbers. *)
Lemma iterator_reorders tasks (order : list (nat * T)) :
  order ≡ₚ numbered tasks ->
  it_items (foldl (fun it '(i, t) => iterator_set i (func t) it)
                  iterator_init order)
  = func <$> tasks.
Proof.
  intros Hperm.
  assert (settled tasks (list_to_set order.*1 ∪ ∅) 
            (foldl (fun it '(i, t) => iterator_set i (func t) it)
                   iterator_init order)) as [[Hb Hs Hi] Haw].
  { apply foldl_set_settled.
    - set_solver.
    - split; [constructor; simpl|simpl; set_solver].
      + intros; lia.
      + intros j r. rewrite lookup_empty. split; [done|set_solver].
      + done.
    - intros i t Hin. split; [|set_solver].
      apply numbered_lookup. by rewrite <- Hperm.
    - rewrite Hperm, numbered_fst. apply NoDup_seq. }
  rewrite Hi. rewrite take_ge; [done|].
  set (it' := foldl _ _ _) in *.
  destruct (decide (length tasks <= it_index it')%nat) as [|Hlt]; [done|].
  exfalso. apply Haw.
  destruct (lookup_lt_is_Some_2 tasks (it_index it')) as [t Ht]; [lia|].
  apply elem_of_union_l, elem_of_list_to_set, list_elem_of_fmap.
  exists (it_index it', t). split; [done|].
  rewrite Hperm. by apply numbered_lookup.
Qed.

(** Every task finishes once. *)
Lemma completions_perm steps sched (busy queue : list (nat * T)) :
  (busy = [] -> queue = []) ->
  steps = (length busy + length queue)%nat ->
  completions steps sched busy queue ≡ₚ busy ++ queue.
Proof.
  revert sched busy queue.
  induction steps as [|steps IH]; intros sched busy queue Hq Hlen; simpl.
  - destruct busy; [|done]. by rewrite Hq.
  - assert (length busy <> 0%nat) as Hne.
    { intros Hz. apply length_zero_iff_nil in Hz. subst busy.
      rewrite Hq in Hlen by done. done. }
    pose proof (Nat.mod_upper_bound (hd 0%nat sched) _ Hne) as Hk.
    destruct (lookup_lt_is_Some_2 _ _ Hk) as [t Ht]. rewrite Ht.
    rewrite IH.
    + rewrite <- app_assoc, take_drop, app_comm_cons.
      apply Permutation_app_tail. symmetry. by apply delete_Permutation.
    + intros [Hd Htk]%app_eq_nil. destruct queue; [done|done].
    + rewrite !length_app, length_delete by eauto.
      rewrite <- (take_drop 1 queue) in Hlen at 1.
      rewrite length_app in Hlen. lia.
Qed.

(** One worker finishes the tasks in the order of the input. *)
Lemma completions_one_worker sched (l : list (nat * T)) :
  completions (length l) sched (take 1 l) (drop 1 l) = l.
Proof.
  revert sched. induction l as [|x l IH]; intros sched; [done|].
  change (completions (S (length l)) sched [x] l = x :: l).
  cbn [completions length]. rewrite Nat.mod_1_r. cbn [lookup list_lookup].
  f_equal. apply IH.
Qed.

(** [Pool.imap] is the sequential map, for every number of workers and
    every schedule. *)
Lemma imap_ordered workers sched tasks :
  (1 <= workers)%nat ->
  imap workers sched func tasks = func <$> tasks.
Proof.
  intros Hw. unfold imap. apply iterator_reorders.
  assert (length (numbered tasks) = length tasks) as Hlen.
  { by rewrite <- (length_fmap fst), numbered_fst, length_seq. }
  rewrite <- Hlen, completions_perm.
  - by rewrite take_drop.
  - intros Htk. destruct (numbered tasks); [by rewrite drop_nil|].
    destruct workers; [lia|done].
  - by rewrite <- length_app, take_drop.
Qed.

End PoolFacts.

(** ** [strip] and [split] *)

Section StringFacts.
Import PyStr.

Lemma lstrip_nil_iff s : lstrip s = [] <-> blank s.
Proof.
  induction s as [|c s IH]; simpl.
  - split; [constructor|done].
  - destruct (isspace c) eqn:Hc.
    + rewrite IH. split; [by constructor|by inversion 1].
    + split; [done|]. inversion 1; congruence.
Qed.

Lemma lstrip_suffix s : lstrip s `suffix_of` s.
Proof.
  induction s as [|c s IH]; simpl; [done|].
  destruct (isspace c); [by apply suffix_cons_r|done].
Qed.

(** A line is empty after [strip] exactly when it holds only
    whitespace. *)
Lemma strip_nil_iff s : strip s = [] <-> blank s.
Proof.
  unfold strip, rstrip. split.
  - intros Hs. apply (f_equal reverse) in Hs.
    rewrite reverse_involutive, reverse_nil in Hs.
    apply lstrip_nil_iff in Hs.
    destruct (decide (lstrip s = [])) as [Hl|Hl]; [by apply lstrip_nil_iff|].
    exfalso. destruct (lstrip s) as [|c s'] eqn:Hls; [done|].
    assert (isspace c = true) as Hc.
    { unfold blank in Hs. rewrite Forall_reverse in Hs. by inversion Hs. }
    clear -Hls Hc. induction s as [|d s IH]; simpl in Hls; [done|].
    destruct (isspace d) eqn:Hd; [by apply IH|].
    injection Hls as -> _. congruence.
  - intros Hb. apply lstrip_nil_iff in Hb. by rewrite Hb.
Qed.

Lemma split_ws_from_fields cur s :
  Forall (fun c => isspace c = false) cur ->
  Forall (fun w => w <> [] /\ Forall (fun c => isspace c = false) w)
         (split_ws_from cur s).
Proof.
  revert cur. induction s as [|c s IH]; intros cur Hcur; simpl.
  - destruct cur as [|d cur]; [constructor|].
    constructor; [|constructor]. split.
    + intros Hr. apply (f_equal length) in Hr. by rewrite length_reverse in Hr.
    + by apply Forall_reverse.
  - destruct (isspace c) eqn:Hc.
    + destruct cur as [|d cur]; [by apply IH|].
      constructor; [|by apply IH]. split.
      * intros Hr. apply (f_equal length) in Hr. by rewrite length_reverse in Hr.
      * by apply Forall_reverse.
    + apply IH. by constructor.
Qed.

(** The fields of a whitespace split are not empty and hold no
    whitespace. *)
Lemma split_ws_fields s :
  Forall (fun w => w <> [] /\ Forall (fun c => isspace c = false) w) (split_ws s).
Proof. by apply split_ws_from_fields. Qed.

(** A split on a separator always gives at least one field. *)
Lemma split_sep_from_cons sep skip cur s : split_sep_from sep skip cur s <> [].
Proof.
  revert skip cur. induction s as [|c s IH]; intros skip cur; simpl; [done|].
  destruct skip; [|by apply IH]. by destruct (startswith sep (c :: s)).
Qed.

End StringFacts.

(** ** The reader *)

Section ReaderFacts.

Lemma line_record_blank line :
  PyStr.strip line = [] -> line_record None line = raise IndexError.
Proof. unfold line_record. by intros ->. Qed.

(** With the whitespace separator a line fails with [IndexError]
    only. *)
Lemma line_record_ws_error line e :
  line_record None line = inl e -> e = IndexError.
Proof.
  unfold line_record. simpl.
  destruct (PyStr.split_ws (PyStr.strip line)) as [|a [|b items]]; simpl;
    by intros [=].
Qed.

Lemma before_end_mono i j end_pos :
  i <= j -> before_end j end_pos = true -> before_end i end_pos = true.
Proof.
  destruct end_pos as [e|]; simpl; [|done].
  intros Hij ?%Z.ltb_lt. apply Z.ltb_lt. lia.
Qed.

(** The loop yields the records of the lines that it does not skip
    and that come before [end_pos]; it finishes when the file ends
    there, and otherwise leaves by [raise StopIteration]. *)
Lemma read_smi_loop_window sep start_pos end_pos lines : forall i rs,
  let skip := Z.to_nat (start_pos - i) in
  records_of sep
    match end_pos with
    | None => drop skip lines
    | Some e => take (Z.to_nat (e - Z.max start_pos i)) (drop skip lines)
    end = ret rs ->
  read_smi_loop sep start_pos end_pos i lines
  = (rs,
     match end_pos with
     | None => Finished
     | Some e =>
         if (skip + Z.to_nat (e - Z.max start_pos i) <? length lines)%nat
         then Raised StopIteration else Finished
     end).
Proof.
  induction lines as [|line rest IH]; intros i rs skip Hrs.
  - subst skip. rewrite drop_nil in Hrs. simpl.
    destruct end_pos as [e|]; [rewrite take_nil in Hrs|]; simpl in Hrs;
      by injection Hrs as <-.
  - simpl. destruct (start_pos <=? i) eqn:Hstart.
    + apply Z.leb_le in Hstart.
      assert (skip = 0%nat) as Hskip by (subst skip; lia).
      rewrite Hskip in Hrs |- *. rewrite drop_0 in Hrs.
      assert (Z.to_nat (start_pos - (i + 1)) = 0%nat) as Hskip' by lia.
      specialize (IH (i + 1)). simpl in IH. rewrite Hskip', drop_0 in IH.
      destruct end_pos as [e|]; simpl.
      * rewrite Z.max_r in Hrs |- * by lia. rewrite Z.max_r in IH by lia.
        destruct (i <? e) eqn:Hend.
        -- apply Z.ltb_lt in Hend.
           replace (Z.to_nat (e - i)) with (S (Z.to_nat (e - (i + 1))))
             in Hrs |- * by lia.
           simpl in Hrs. unfold bind in Hrs at 1.
           destruct (line_record sep line) as [err|r]; [done|].
           unfold bind in Hrs at 1.
           destruct (records_of sep (take _ rest)) as [err|rs'] eqn:Hrest;
             [done|]. injection Hrs as <-.
           by rewrite (IH rs' eq_refl).
        -- apply Z.ltb_ge in Hend.
           replace (Z.to_nat (e - i)) with 0%nat in Hrs |- * by lia.
           simpl in Hrs. by injection Hrs as <-.
      * simpl in Hrs. unfold bind in Hrs at 1.
        destruct (line_record sep line) as [err|r]; [done|].
        unfold bind in Hrs at 1.
        destruct (records_of sep rest) as [err|rs'] eqn:Hrest; [done|].
        injection Hrs as <-. by rewrite (IH rs' eq_refl).
    + apply Z.leb_gt in Hstart.
      assert (skip = S (Z.to_nat (start_pos - (i + 1)))) as Hskip
        by (subst skip; lia).
      rewrite Hskip in Hrs |- *. simpl in Hrs.
      specialize (IH (i + 1) rs). simpl in IH.
      rewrite !Z.max_l in * by lia. rewrite IH by done.
      by destruct end_pos.
Qed.

(** A blank line inside the window, under the whitespace separator:
    the loop leaves with [IndexError], after the records of the lines
    before it. *)
Lemma read_smi_loop_blank start_pos end_pos line post : forall pre i,
  PyStr.strip line = [] ->
  start_pos <= i + Z.of_nat (length pre) ->
  before_end (i + Z.of_nat (length pre)) end_pos = true ->
  read_smi_loop None start_pos end_pos i (pre ++ line :: post)
  = ((read_smi_loop None start_pos end_pos i pre).1, Raised IndexError).
Proof.
  induction pre as [|l pre IH]; intros i Hblank Hstart Hend.
  - simpl in *. rewrite Z.add_0_r in Hstart, Hend.
    rewrite (proj2 (Z.leb_le _ _) Hstart), Hend.
    by rewrite line_record_blank.
  - cbn [length] in Hstart, Hend. rewrite Nat2Z.inj_succ in Hstart, Hend.
    replace (i + Z.succ (Z.of_nat (length pre)))
      with (i + 1 + Z.of_nat (length pre)) in Hstart, Hend by lia.
    simpl. destruct (start_pos <=? i).
    + assert (before_end i end_pos = true) as ->
        by (eapply before_end_mono; [|exact Hend]; lia).
      destruct (line_record None l) as [e|r] eqn:Hl.
      * by rewrite (line_record_ws_error _ _ Hl).
      * rewrite IH by done.
        by destruct (read_smi_loop None start_pos end_pos (i + 1) pre).
    + by apply IH.
Qed.

(** The yields of the loop on a part of the file are at most its
    lines. *)
Lemma read_smi_loop_length sep start_pos end_pos lines : forall i,
  (length (read_smi_loop sep start_pos end_pos i lines).1 <= length lines)%nat.
Proof.
  induction lines as [|line rest IH]; intros i; simpl; [done|].
  destruct (start_pos <=? i).
  - destruct (before_end i end_pos); [|simpl; lia].
    destruct (line_record sep line); [simpl; lia|].
    specialize (IH (i + 1)).
    destruct (read_smi_loop sep start_pos end_pos (i + 1) rest). simpl in *. lia.
  - specialize (IH (i + 1)). lia.
Qed.

End ReaderFacts.

(** A line beyond the window ends the body by [raise StopIteration]:
    without [generator_stop] the iteration just ends, with it the
    consumer gets [RuntimeError]. *)
Lemma read_smi_beyond_window gs f sep p n rs :
  1 <= p ->
  records_of sep (window_lines p (Some n) f) = ret rs ->
  ends_in_window p (Some n) f = false ->
  read_smi gs f sep p (Some n)
  = (rs, if gs then Raised RuntimeError else Finished).
Proof.
  intros Hp Hrs Hends. unfold read_smi, window_lines, ends_in_window in *.
  pose proof (read_smi_loop_window sep (p - 1) (Some (p - 1 + n)) f 0 rs) as Hloop.
  simpl in Hloop. rewrite Z.sub_0_r, Z.max_l in Hloop by lia.
  replace (p - 1 + n - (p - 1)) with n in Hloop by lia.
  rewrite (Hloop Hrs). apply Nat.leb_gt in Hends.
  by rewrite (proj2 (Nat.ltb_lt _ _)) by lia.
Qed.

(** C2 (as amended). For a start line [p >= 1] and a window whose lines
    all give a record (none is blank under the whitespace separator, the
    separator is not empty), the reader yields exactly the records of
    the lines [p] to [p + l - 1], or to the end of the file when no
    count is given, in their order; when no line of the file comes after
    the window the iteration then ends without error. *)
Theorem read_smi_yields_window gs f sep p l rs :
  1 <= p ->
  records_of sep (window_lines p l f) = ret rs ->
  (read_smi gs f sep p l).1 = rs
  /\ (ends_in_window p l f = true -> (read_smi gs f sep p l).2 = Finished).
Proof.
  intros Hp Hrs. unfold read_smi, window_lines, ends_in_window in *.
  pose proof (read_smi_loop_window sep (p - 1)
                match l with Some n => Some (p - 1 + n) | None => None end
                f 0 rs) as Hloop.
  simpl in Hloop. rewrite Z.sub_0_r in Hloop.
  destruct l as [n|].
  - rewrite Z.max_l in Hloop by lia.
    replace (p - 1 + n - (p - 1)) with n in Hloop by lia.
    rewrite (Hloop Hrs). split; [done|]. simpl. intros Hends%Nat.leb_le.
    by rewrite (proj2 (Nat.ltb_ge _ _)) by lia.
  - by rewrite (Hloop Hrs).
Qed.

(** Start 3 and count 2 on a file of five lines: the records of the
    third and the fourth line. *)
Lemma read_smi_yields_window_witness :
  1 <= 3
  /\ records_of None (window_lines 3 (Some 2) Standin.five_lines)
     = ret [(u "CCO", u "spirit"); (u "c1ccccc1", u "c1ccccc1")]
  /\ (read_smi true Standin.five_lines None 3 (Some 2)).1
     = [(u "CCO", u "spirit"); (u "c1ccccc1", u "c1ccccc1")].
Proof.
  split_and!; [lia | by vm_compute |].
  apply (read_smi_yields_window true Standin.five_lines None 3 (Some 2));
    [lia | by vm_compute].
Defined.

(** C2 (as stated) fails: a blank line inside the window stops the
    reader with [IndexError], and the records of the lines after it are
    never yielded. *)
Lemma read_smi_blank_line_counterexample :
  let f := [u "CCO" ++ [TAB] ++ u "ethanol" ++ [LF];
            [LF];
            u "c1ccccc1" ++ [TAB] ++ u "benzene" ++ [LF]] in
  length (window_lines 1 None f) = 3%nat
  /\ read_smi false f None 1 None = ([(u "CCO", u "ethanol")], Raised IndexError)
  /\ read_smi true f None 1 None = ([(u "CCO", u "ethanol")], Raised IndexError).
Proof. vm_compute. by split_and!. Qed.

(** What the reader makes of a file of one line, by the fields of
    [line.strip().split(sep)]. *)
Lemma read_smi_one_line gs sep line :
  read_smi gs [line] sep 1 None
  = match PyStr.split sep (PyStr.strip line) with
    | inr [a] => ([(a, a)], Finished)
    | inr (a :: b :: _) => ([(a, b)], Finished)
    | inr [] => ([], Raised IndexError)
    | inl e => ([], generator_exit gs (Raised e))
    end.
Proof.
  unfold read_smi. simpl. unfold line_record.
  by destruct (PyStr.split sep (PyStr.strip line)) as [e|[|a [|b items]]].
Qed.

(** C7. For a line inside the window the reader computes the fields of
    [line.strip().split(sep)]: one field is yielded as structure and as
    identifier, of two or more the first is the structure and the second
    the identifier. The line "CCO<TAB>ethanol" gives the identifier
    "ethanol" and the structure "CCO"; the line "CCO" gives "CCO" for
    both. *)
Theorem read_smi_strips_and_splits :
  (forall gs sep line,
      read_smi gs [line] sep 1 None
      = match PyStr.split sep (PyStr.strip line) with
        | inr [a] => ([(a, a)], Finished)
        | inr (a :: b :: _) => ([(a, b)], Finished)
        | inr [] => ([], Raised IndexError)
        | inl e => ([], generator_exit gs (Raised e))
        end)
  /\ (forall gs,
      read_smi gs [u "CCO" ++ [TAB] ++ u "ethanol" ++ [LF]] None 1 None
      = ([(u "CCO", u "ethanol")], Finished)
      /\ read_smi gs [u "CCO" ++ [TAB] ++ u "ethanol" ++ [LF]] (Some [TAB]) 1 None
         = ([(u "CCO", u "ethanol")], Finished)
      /\ rec_name (u "CCO", u "ethanol") = u "ethanol"
      /\ rec_smi (u "CCO", u "ethanol") = u "CCO")
  /\ (forall gs,
      read_smi gs [u "CCO" ++ [LF]] None 1 None = ([(u "CCO", u "CCO")], Finished)
      /\ read_smi gs [u "CCO" ++ [LF]] (Some [TAB]) 1 None
         = ([(u "CCO", u "CCO")], Finished)
      /\ rec_name (u "CCO", u "CCO") = u "CCO"
      /\ rec_smi (u "CCO", u "CCO") = u "CCO").
Proof.
  split_and!.
  - apply read_smi_one_line.
  - intros gs. split_and!; by vm_compute.
  - intros gs. split_and!; by vm_compute.
Qed.

(** C8 (as amended). For every line with two or more fields the reader
    yields the first field as the structure notation and the second as
    the identifier: [calc_mp] passes them to [calc] as [smi] and
    [name]. *)
Theorem read_smi_first_field_is_structure `{Toolkit} gs sep line a b rest :
  PyStr.split sep (PyStr.strip line) = ret (a :: b :: rest) ->
  exists r,
    read_smi gs [line] sep 1 None = ([r], Finished)
    /\ rec_smi r = a /\ rec_name r = b
    /\ calc_mp r = calc a b.
Proof.
  intros Hsplit. exists (a, b). split; [|done].
  by rewrite read_smi_one_line, Hsplit.
Qed.

Lemma read_smi_first_field_is_structure_witness :
  PyStr.split None (PyStr.strip (u "CCO" ++ [TAB] ++ u "ethanol" ++ [LF]))
  = ret [u "CCO"; u "ethanol"]
  /\ exists r,
       read_smi true [u "CCO" ++ [TAB] ++ u "ethanol" ++ [LF]] None 1 None
       = ([r], Finished)
       /\ rec_smi r = u "CCO" /\ rec_name r = u "ethanol"
       /\ calc_mp r = calc (u "CCO") (u "ethanol").
Proof.
  split; [by vm_compute|].
  apply (read_smi_first_field_is_structure true None _ (u "CCO") (u "ethanol") []).
  by vm_compute.
Defined.

(** C8 (as stated) fails: of the two fields of "CCO<TAB>ethanol" the
    identifier is the second, "ethanol", and the structure the first,
    "CCO"; the row of the output carries "ethanol" as its name. *)
Lemma first_field_identifier_counterexample :
  let line := u "CCO" ++ [TAB] ++ u "ethanol" ++ [LF] in
  PyStr.split None (PyStr.strip line) = ret [u "CCO"; u "ethanol"]
  /\ read_smi false [line] None 1 None = ([(u "CCO", u "ethanol")], Finished)
  /\ rec_name (u "CCO", u "ethanol") <> u "CCO"
  /\ rec_smi (u "CCO", u "ethanol") <> u "ethanol"
  /\ calc_mp (u "CCO", u "ethanol") = calc (u "CCO") (u "ethanol")
  /\ exists t, (calc_mp (u "CCO", u "ethanol")).1 = ret (Some (VStr (u "ethanol") :: t)).
Proof.
  split_and!; try by vm_compute.
  eexists. vm_compute. reflexivity.
Qed.

(** Without [-p] the loop starts at index 0 with [start_pos = -1], so a
    count of [n] lines ends the window one line early. *)
Lemma read_smi_startpos_default gs f sep n rs :
  records_of sep (take (Z.to_nat (n - 1)) f) = ret rs ->
  (read_smi gs f sep startpos_default (Some n)).1 = rs.
Proof.
  intros Hrs. unfold read_smi, startpos_default.
  pose proof (read_smi_loop_window sep (0 - 1) (Some (0 - 1 + n)) f 0 rs) as Hloop.
  cbv beta iota zeta in Hloop.
  assert (Z.to_nat (0 - 1 + n - Z.max (0 - 1) 0) = Z.to_nat (n - 1)) as Hc by lia.
  rewrite Hc in Hloop.
  change (Z.to_nat (0 - 1 - 0)) with 0%nat in Hloop. rewrite drop_0 in Hloop.
  by rewrite (Hloop Hrs).
Qed.

(** C9 (the code departs from it). With [-l 2] and no [-p] the reader
    yields the record of the first line only, where [-p 1 -l 2] yields
    the records of the first two lines: the default of [-p/--startpos]
    is 0, not the 1 of its help text. *)
Theorem default_startpos_drops_a_line :
  let flags := {| opt_sep := None; opt_startpos := None; opt_lines := Some 2;
                  opt_ncpu := None; opt_verbose := false |} in
  let flags1 := {| opt_sep := None; opt_startpos := Some 1; opt_lines := Some 2;
                   opt_ncpu := None; opt_verbose := false |} in
  let a := parse_args flags in
  let a1 := parse_args flags1 in
  start_pos a = 0
  /\ (forall gs,
       (read_smi gs Standin.five_lines (sep a) (start_pos a) (nlines a)).1
       = [(u "CCO", u "ethanol")])
  /\ (forall gs,
       (read_smi gs Standin.five_lines (sep a1) (start_pos a1) (nlines a1)).1
       = [(u "CCO", u "ethanol"); (u "c1ccccc1", u "benzene")]).
Proof. split_and!; [done | intros [] | intros []]; by vm_compute. Qed.

(** C10. A line that is empty after [strip], inside the window, under
    the whitespace separator: the reader raises [IndexError]; it has
    yielded the records of the lines before the blank one, and yields
    nothing for it nor after it. *)
Theorem blank_line_raises_index_error gs pre line post p l :
  PyStr.strip line = [] ->
  in_window p l (length pre) = true ->
  read_smi gs (pre ++ line :: post) None p l
  = ((read_smi gs pre None p l).1, Raised IndexError)
  /\ (length (read_smi gs (pre ++ line :: post) None p l).1 <= length pre)%nat.
Proof.
  intros Hblank [Hstart%Z.leb_le Hend]%andb_prop.
  assert (read_smi gs (pre ++ line :: post) None p l
          = ((read_smi gs pre None p l).1, Raised IndexError)) as Heq.
  { unfold read_smi. rewrite read_smi_loop_blank by done.
    by destruct (read_smi_loop None (p - 1) _ 0 pre). }
  split; [done|]. rewrite Heq. unfold read_smi. simpl.
  pose proof (read_smi_loop_length None (p - 1)
                match l with Some n => Some (p - 1 + n) | None => None end
                pre 0) as Hlen.
  by destruct (read_smi_loop None (p - 1) _ 0 pre).
Qed.

Lemma blank_line_raises_index_error_witness :
  PyStr.strip [TAB; LF] = []
  /\ in_window 2 (Some 3) 1 = true
  /\ read_smi true (take 1 Standin.five_lines ++ [TAB; LF] :: drop 1 Standin.five_lines)
       None 2 (Some 3)
     = ([], Raised IndexError).
Proof.
  split_and!; [by vm_compute | by vm_compute |].
  apply (blank_line_raises_index_error true (take 1 Standin.five_lines) [TAB; LF]
           (drop 1 Standin.five_lines) 2 (Some 3)); by vm_compute.
Defined.

(** ** The calculator *)

(** The tuple that [calc] builds for a parsed molecule, given the value
    of line 30. *)
Lemma calc_parsed `{Toolkit} smi name m :
  MolFromSmiles smi = Some m ->
  calc smi name
  = (fmf <-! fmf_of m;
     ret (Some [VStr name; VInt (CalcNumHBA m); VInt (CalcNumHBD m);
                VInt (CalcNumHBA m + CalcNumHBD m);
                VInt (CalcNumRings m); VInt (CalcNumRotatableBonds m);
                VFloat (round (CalcTPSA m) 2);
                VFloat (round (CalcCrippenDescriptors m).1 2);
                VFloat (round (CalcCrippenDescriptors m).2 2);
                VFloat (round (CalcMolWt m) 2);
                VFloat (round (CalcFractionCSP3 m) 3);
                VFloat (round fmf 3);
                VFloat (round (qed m) 3)]),
     []).
Proof.
  intros Hm. unfold calc. rewrite Hm.
  by destruct (CalcCrippenDescriptors m).
Qed.

Lemma fmf_of_heavy `{Toolkit} m :
  GetNumHeavyAtoms m <> 0 ->
  fmf_of m
  = ret (truediv (GetNumHeavyAtoms (GetScaffoldForMol m)) (GetNumHeavyAtoms m)).
Proof.
  intros Hz. unfold fmf_of, py_truediv.
  by rewrite (proj2 (Z.eqb_neq _ _) Hz).
Qed.

Lemma fmf_of_no_heavy `{Toolkit} m :
  GetNumHeavyAtoms m = 0 -> fmf_of m = raise ZeroDivisionError.
Proof. intros Hz. unfold fmf_of, py_truediv. by rewrite Hz. Qed.

(** C1 (as amended). For a structure that the toolkit parses to a
    molecule with at least one heavy atom, [calc] returns the identifier
    followed by exactly twelve values, in the order of
    [descriptor_names]: HBA, HBD, their sum, the ring count, the
    rotatable bonds, then TPSA, logP, MR and MW rounded to 2 places, and
    the fraction of sp3 carbons, the fraction in the scaffold and QED
    rounded to 3 places. It writes nothing to the error stream. *)
Theorem calc_returns_descriptors `{Toolkit} smi name m :
  MolFromSmiles smi = Some m ->
  GetNumHeavyAtoms m <> 0 ->
  exists t,
    calc smi name = (ret (Some (VStr name :: t)), [])
    /\ length t = length descriptor_names
    /\ length t = 12%nat
    /\ t = [VInt (CalcNumHBA m); VInt (CalcNumHBD m);
            VInt (CalcNumHBA m + CalcNumHBD m);
            VInt (CalcNumRings m); VInt (CalcNumRotatableBonds m);
            VFloat (round (CalcTPSA m) 2);
            VFloat (round (CalcCrippenDescriptors m).1 2);
            VFloat (round (CalcCrippenDescriptors m).2 2);
            VFloat (round (CalcMolWt m) 2);
            VFloat (round (CalcFractionCSP3 m) 3);
            VFloat (round (truediv (GetNumHeavyAtoms (GetScaffoldForMol m))
                                   (GetNumHeavyAtoms m)) 3);
            VFloat (round (qed m) 3)].
Proof.
  intros Hm Hz. eexists. split.
  - rewrite (calc_parsed _ _ _ Hm), (fmf_of_heavy _ Hz). reflexivity.
  - by split_and!.
Qed.

Lemma calc_returns_descriptors_witness :
  @MolFromSmiles _ Standin.toolkit (u "c1ccccc1") = Some Standin.benzene
  /\ @GetNumHeavyAtoms _ Standin.toolkit Standin.benzene <> 0
  /\ exists t,
       calc (u "c1ccccc1") (u "benzene") = (ret (Some (VStr (u "benzene") :: t)), [])
       /\ length t = 12%nat
       /\ t = [VInt 0; VInt 0; VInt 0; VInt 1; VInt 0;
               VFloat 0; VFloat 1690000; VFloat 26440000; VFloat 78110000;
               VFloat 0; VFloat 1000000; VFloat 443000].
Proof.
  split_and!; [by vm_compute | by vm_compute |].
  destruct (@calc_returns_descriptors _ Standin.toolkit
              (u "c1ccccc1") (u "benzene") Standin.benzene)
    as (t & Hcalc & _ & Hlen & Ht); [by vm_compute | by vm_compute |].
  exists t. split_and!; [exact Hcalc | exact Hlen |].
  rewrite Ht. vm_compute. reflexivity.
Defined.

(** C1 (as stated) fails: the toolkit parses the hydrogen molecule, it
    has no heavy atom, and [calc] returns no record but raises
    [ZeroDivisionError]. *)
Lemma calc_no_heavy_atom_counterexample :
  @MolFromSmiles _ Standin.toolkit (u "[H][H]") = Some Standin.hydrogen
  /\ calc (u "[H][H]") (u "h2") = (raise ZeroDivisionError, []).
Proof. split; by vm_compute. Qed.

(** The written text holds the structure and the identifier. *)
Lemma parse_message_holds `{Toolkit} smi name :
  parse_message smi name
  = u "smiles " ++ smi ++ u " cannot be parsed (" ++ name ++ u ")".
Proof. reflexivity. Qed.

(** A record that does not parse gives [None] in its batch, and the
    records after it are still computed. *)
Lemma mapstar_unparsed `{Toolkit} r chunk :
  parsed r = false ->
  mapstar (r :: chunk) = (xs <-! mapstar chunk; ret (None :: xs)).
Proof.
  unfold parsed. intros Hr. simpl. unfold calc_mp, calc, rec_smi in *.
  by destruct (MolFromSmiles r.1).
Qed.

(** The rows that the results of a batch add to the output file. *)
Lemma write_items_rows `{Toolkit} verbose items : forall i,
  (write_items verbose i items).1
  = flat_map (fun res => if truthy res then [row (default [] res)] else []) items.
Proof.
  induction items as [|res items IH]; intros i; simpl; [done|].
  specialize (IH (i + 1)). destruct (write_items verbose (i + 1) items).
  simpl in *. by rewrite IH.
Qed.

(** The text of line 35 ends with its closing bracket, and holds a line
    break only where the structure or the identifier holds one. *)
Lemma parse_message_line_breaks `{Toolkit} smi name :
  last (parse_message smi name) = Some 41%N
  /\ (LF ∈ parse_message smi name -> LF ∈ smi \/ LF ∈ name).
Proof.
  unfold parse_message. split.
  - change (u ")") with [41%N]. by rewrite !app_assoc, last_snoc.
  - rewrite !elem_of_app. intros [Hin|[Hin|[Hin|[Hin|Hin]]]]; auto;
      exfalso; apply list_elem_of_In in Hin; vm_compute in Hin;
      repeat (destruct Hin as [Hin|Hin]; [discriminate|]); done.
Qed.

(** C3 (as amended). For a structure that the toolkit does not parse,
    [calc] returns [None] and writes to the error stream once: the text
    "smiles <structure> cannot be parsed (<identifier>)", which holds
    the structure and the identifier and is not ended by a line break
    (its last character is the closing bracket, and [calc] puts no line
    break into it). The failure is not fatal: the batch goes on with the
    next record, and the loop of [__main__] writes no row for [None] and
    goes on. *)
Theorem calc_parse_failure `{Toolkit} smi name :
  MolFromSmiles smi = None ->
  calc smi name = (ret None, [parse_message smi name])
  /\ (exists before middle after,
        parse_message smi name = before ++ smi ++ middle ++ name ++ after)
  /\ (forall chunk,
        mapstar ((smi, name) :: chunk) = (xs <-! mapstar chunk; ret (None :: xs)))
  /\ (forall verbose i items,
        (write_items verbose i (None :: items)).1
        = (write_items verbose (i + 1) items).1)
  /\ parse_message smi name
     = u "smiles " ++ smi ++ u " cannot be parsed (" ++ name ++ u ")"
  /\ last (parse_message smi name) = Some 41%N
  /\ last (parse_message smi name) <> Some LF
  /\ (LF ∈ parse_message smi name -> LF ∈ smi \/ LF ∈ name).
Proof.
  intros Hm. destruct (parse_message_line_breaks smi name) as [Hlast Hlf].
  split_and!.
  - unfold calc. by rewrite Hm.
  - by exists (u "smiles "), (u " cannot be parsed ("), (u ")").
  - intros chunk. apply mapstar_unparsed. unfold parsed, rec_smi. simpl.
    by rewrite Hm.
  - intros verbose i items. by rewrite !write_items_rows.
  - done.
  - done.
  - by rewrite Hlast.
  - done.
Qed.

Lemma calc_parse_failure_witness :
  MolFromSmiles (u "C1CC") = None
  /\ calc (u "C1CC") (u "broken")
     = (ret None, [u "smiles C1CC cannot be parsed (broken)"]).
Proof.
  split; [by vm_compute|].
  apply (calc_parse_failure (u "C1CC") (u "broken")). by vm_compute.
Defined.

(** C3 (as stated) fails: what [calc] writes is not a line. The text
    holds no line break, so that after two failures in a row the error
    stream holds the two texts run together, without a single line
    break. *)
Lemma calc_parse_failure_no_line_counterexample :
  (calc (u "C1CC") (u "broken")).2 = [u "smiles C1CC cannot be parsed (broken)"]
  /\ (calc (u "C1C") (u "open")).2 = [u "smiles C1C cannot be parsed (open)"]
  /\ concat ((calc (u "C1CC") (u "broken")).2 ++ (calc (u "C1C") (u "open")).2)
     = u "smiles C1CC cannot be parsed (broken)smiles C1C cannot be parsed (open)"
  /\ count_occ N.eq_dec
       (concat ((calc (u "C1CC") (u "broken")).2 ++ (calc (u "C1C") (u "open")).2))
       LF
     = 0%nat.
Proof. split_and!; by vm_compute. Qed.

(** C4. For a parsed molecule without heavy atoms the division of line
    30 raises [ZeroDivisionError] and [calc] lets it through; for a
    parsed molecule with a heavy atom the division gives the count of
    the scaffold's heavy atoms over the count of the molecule's, and
    [calc] returns a record that holds it, rounded to 3 places. *)
Theorem calc_scaffold_fraction `{Toolkit} smi name m :
  MolFromSmiles smi = Some m ->
  (GetNumHeavyAtoms m = 0 ->
     fmf_of m = raise ZeroDivisionError
     /\ calc smi name = (raise ZeroDivisionError, []))
  /\ (GetNumHeavyAtoms m <> 0 ->
        fmf_of m
        = ret (truediv (GetNumHeavyAtoms (GetScaffoldForMol m))
                       (GetNumHeavyAtoms m))
        /\ exists t,
             calc smi name = (ret (Some t), [])
             /\ t !! 11%nat
                = Some (VFloat (round (truediv (GetNumHeavyAtoms (GetScaffoldForMol m))
                                               (GetNumHeavyAtoms m)) 3))).
Proof.
  intros Hm. split; intros Hz.
  - split; [by apply fmf_of_no_heavy|].
    by rewrite (calc_parsed _ _ _ Hm), (fmf_of_no_heavy _ Hz).
  - split; [by apply fmf_of_heavy|].
    eexists. split.
    + rewrite (calc_parsed _ _ _ Hm), (fmf_of_heavy _ Hz). reflexivity.
    + reflexivity.
Qed.

Lemma calc_scaffold_fraction_witness :
  @MolFromSmiles _ Standin.toolkit (u "[H][H]") = Some Standin.hydrogen
  /\ @GetNumHeavyAtoms _ Standin.toolkit Standin.hydrogen = 0
  /\ calc (u "[H][H]") (u "h2") = (raise ZeroDivisionError, [])
  /\ @MolFromSmiles _ Standin.toolkit (u "CCO") = Some Standin.ethanol
  /\ @GetNumHeavyAtoms _ Standin.toolkit Standin.ethanol <> 0
  /\ @fmf_of _ Standin.toolkit Standin.ethanol = ret (truediv 0 3).
Proof.
  split_and!.
  - by vm_compute.
  - by vm_compute.
  - apply (@calc_scaffold_fraction _ Standin.toolkit
             (u "[H][H]") (u "h2") Standin.hydrogen); by vm_compute.
  - by vm_compute.
  - by vm_compute.
  - apply (@calc_scaffold_fraction _ Standin.toolkit
             (u "CCO") (u "ethanol") Standin.ethanol); by vm_compute.
Defined.

(** ** The dispatcher *)

Section MainFacts.
Context `{Toolkit}.

(** With at least one process the run does not depend on the number
    of workers nor on the schedule: it is the loop of line 96 over the
    results of the tasks in the order of the input. *)
Lemma main_sequential gs cpu_count sched a f :
  1 <= ncpu a ->
  1 <= cpu_count ->
  main gs cpu_count sched a f
  = let '(rows, msgs, e) :=
      main_loop (verbose a) 0
        (run_task <$> task_batches
           (read_smi gs f (sep a) (start_pos a) (nlines a))) in
    {| out_file := Some (header :: rows); progress := msgs; status := e |}.
Proof.
  intros Hn Hc. unfold main.
  rewrite (proj2 (Z.ltb_ge _ _)) by lia.
  by rewrite imap_ordered by lia.
Qed.

(** Without an exception of the reader the batches hold the records
    read, in their order. *)
Lemma get_tasks_finished size : forall rs room cur,
  exists chunks,
    get_tasks size room cur rs Finished = Batch <$> chunks
    /\ concat chunks = reverse cur ++ rs.
Proof.
  induction rs as [|r rs IH]; intros room cur; cbn [get_tasks].
  - destruct cur as [|c cur].
    + by exists [].
    + exists [reverse (c :: cur)]. split; [done|].
      cbn [concat]. by rewrite !app_nil_r.
  - destruct room as [|[|room]].
    + destruct (IH size []) as (chunks & -> & Hc).
      exists (reverse (r :: cur) :: chunks). split; [done|].
      cbn [concat]. rewrite Hc, reverse_nil, reverse_cons, <- app_assoc. done.
    + destruct (IH size []) as (chunks & -> & Hc).
      exists (reverse (r :: cur) :: chunks). split; [done|].
      cbn [concat]. rewrite Hc, reverse_nil, reverse_cons, <- app_assoc. done.
    + destruct (IH (S room) (r :: cur)) as (chunks & -> & Hc).
      exists chunks. split; [done|].
      rewrite Hc, reverse_cons, <- app_assoc. done.
Qed.

(** A batch whose records all let [calc] return. *)
Lemma mapstar_returns chunk :
  Forall (fun r => exists x, (calc_mp r).1 = ret x) chunk ->
  exists xs,
    mapstar chunk = ret xs
    /\ Forall2 (fun r x => (calc_mp r).1 = ret x) chunk xs.
Proof.
  induction 1 as [|r chunk [x Hx] _ (xs & Hxs & Hall)]; simpl.
  - by exists [].
  - exists (x :: xs). rewrite Hx, Hxs. split; [done|]. by constructor.
Qed.

Lemma main_loop_returns verbose chunks : forall i,
  Forall (fun r => exists x, (calc_mp r).1 = ret x) (concat chunks) ->
  exists xs,
    Forall2 (fun r x => (calc_mp r).1 = ret x) (concat chunks) xs
    /\ (main_loop verbose i (run_task <$> (Batch <$> chunks))).1.1
       = flat_map (fun res => if truthy res then [row (default [] res)] else []) xs
    /\ (main_loop verbose i (run_task <$> (Batch <$> chunks))).2 = Finished.
Proof.
  induction chunks as [|chunk chunks IH]; intros i Hall.
  - exists []. by split_and!.
  - cbn [concat] in *. apply Forall_app in Hall as [Hchunk Hrest].
    destruct (mapstar_returns _ Hchunk) as (xs1 & Hm & H1).
    destruct (IH (i + Z.of_nat (length xs1)) Hrest) as (xs2 & H2 & Hrows & Hend).
    exists (xs1 ++ xs2). split; [by apply Forall2_app|].
    rewrite !fmap_cons. cbn [main_loop run_task]. rewrite Hm.
    unfold ret. pose proof (write_items_rows verbose xs1 i) as Hw.
    destruct (write_items verbose i xs1) as [rows1 msgs1].
    destruct (main_loop verbose _ _) as [[rows2 msgs2] e]. simpl in *.
    by rewrite Hw, Hrows, flat_map_app.
Qed.

(** What [calc] returns for a record, when the molecule has a heavy
    atom: the tuple with its identifier if the structure parses, and
    [None] if not. *)
Lemma calc_mp_returns r :
  (forall m, MolFromSmiles (rec_smi r) = Some m -> GetNumHeavyAtoms m <> 0) ->
  exists x,
    (calc_mp r).1 = ret x
    /\ (parsed r = true -> exists t, x = Some (VStr (rec_name r) :: t))
    /\ (parsed r = false -> x = None).
Proof.
  intros Hheavy. unfold parsed, calc_mp, rec_smi, rec_name in *.
  destruct (MolFromSmiles r.1) as [m|] eqn:Hm.
  - rewrite (calc_parsed _ _ _ Hm), (fmf_of_heavy _ (Hheavy _ eq_refl)).
    eexists. split; [reflexivity|]. split; [by eexists|done].
  - exists None. unfold calc. rewrite Hm. by split_and!.
Qed.

(** The rows of the results are the rows of the parsed records. *)
Lemma rows_of_parsed rs : forall xs,
  Forall (fun r => forall m, MolFromSmiles (rec_smi r) = Some m ->
                             GetNumHeavyAtoms m <> 0) rs ->
  Forall2 (fun r x => (calc_mp r).1 = ret x) rs xs ->
  Forall2 (fun r line =>
             exists t, (calc_mp r).1 = ret (Some (VStr (rec_name r) :: t))
                       /\ line = row (VStr (rec_name r) :: t))
          (List.filter parsed rs)
          (flat_map (fun res => if truthy res then [row (default [] res)] else []) xs).
Proof.
  induction rs as [|r rs IH]; intros xs Hheavy Hxs.
  - inversion Hxs. constructor.
  - inversion Hxs as [|? x ? xs' Hx Hxs']; subst.
    inversion Hheavy as [|? ? Hr Hrs]; subst. simpl.
    destruct (calc_mp_returns r Hr) as (x' & Hx' & Hp & Hn).
    rewrite Hx in Hx'. injection Hx' as <-.
    destruct (parsed r).
    + destruct (Hp eq_refl) as [t ->]. simpl.
      constructor; [by exists t | by apply IH].
    + rewrite (Hn eq_refl). simpl. by apply IH.
Qed.

End MainFacts.



(** C6 (as amended). For a run with at least one worker process in
    which neither the reader nor [calc] raises, the output file is the
    header row followed by one row for each record whose structure
    parses, in the order read, each with the identifier of its record:
    the rows number one more than the parsed records, and an empty input
    gives the header alone. *)
Theorem output_rows_of_parsed_records `{Toolkit} gs cpu_count sched a f rs :
  1 <= ncpu a ->
  1 <= cpu_count ->
  read_smi gs f (sep a) (start_pos a) (nlines a) = (rs, Finished) ->
  (forall r m, r ∈ rs -> MolFromSmiles (rec_smi r) = Some m ->
               GetNumHeavyAtoms m <> 0) ->
  exists rows,
    out_file (main gs cpu_count sched a f) = Some (header :: rows)
    /\ status (main gs cpu_count sched a f) = Finished
    /\ length (header :: rows) = (length (List.filter parsed rs) + 1)%nat
    /\ Forall2 (fun r line =>
                  exists t, (calc_mp r).1 = ret (Some (VStr (rec_name r) :: t))
                            /\ line = row (VStr (rec_name r) :: t))
               (List.filter parsed rs) rows
    /\ (rs = [] -> rows = []).
Proof.
  intros Hn Hc Hread Hheavy.
  rewrite main_sequential, Hread by done. unfold task_batches. simpl.
  destruct (get_tasks_finished chunksize rs chunksize []) as (chunks & -> & Hcat).
  rewrite reverse_nil in Hcat. simpl in Hcat. subst rs.
  assert (Forall (fun r => forall m, MolFromSmiles (rec_smi r) = Some m ->
                                     GetNumHeavyAtoms m <> 0) (concat chunks))
    as Hall.
  { apply Forall_forall. intros r Hr m. by apply Hheavy. }
  assert (Forall (fun r => exists x, (calc_mp r).1 = ret x) (concat chunks))
    as Hret.
  { eapply Forall_impl; [exact Hall|]. intros r Hr.
    destruct (calc_mp_returns r Hr) as (x & Hx & _). by exists x. }
  destruct (main_loop_returns (verbose a) chunks 0 Hret)
    as (xs & Hxs & Hrows & Hend).
  pose proof (rows_of_parsed _ xs Hall Hxs) as Hrel.
  destruct (main_loop (verbose a) 0 _) as [[rows msgs] e]. simpl in *. subst.
  eexists. split_and!; [reflexivity | done | | exact Hrel |].
  - rewrite <- (Forall2_length _ _ _ Hrel). lia.
  - intros Hnil. rewrite Hnil in Hxs. by inversion Hxs.
Qed.

Lemma output_rows_of_parsed_records_witness :
  let a := parse_args Standin.no_flags in
  1 <= ncpu a
  /\ 1 <= 4
  /\ length (List.filter parsed
               (read_smi false Standin.five_lines (sep a) (start_pos a) (nlines a)).1)
     = 4%nat
  /\ exists rows,
       out_file (main false 4 [1; 0]%nat a Standin.five_lines) = Some (header :: rows)
       /\ length (header :: rows) = 5%nat.
Proof.
  split_and!; [by vm_compute | lia | by vm_compute |].
  destruct (output_rows_of_parsed_records false 4 [1; 0]%nat
              (parse_args Standin.no_flags) Standin.five_lines
              [(u "CCO", u "ethanol"); (u "c1ccccc1", u "benzene");
               (u "CCO", u "spirit"); (u "c1ccccc1", u "c1ccccc1");
               (u "C1CC", u "broken")])
    as (rows & Hout & _ & Hlen & _).
  - by vm_compute.
  - lia.
  - by vm_compute.
  - intros r m Hr Hm. revert Hm.
    rewrite !elem_of_cons, elem_of_nil in Hr.
    destruct Hr as [-> | [-> | [-> | [-> | [-> | []]]]]]; vm_compute;
      intros [= <-]; by vm_compute.
  - exists rows. split; [exact Hout|]. rewrite Hlen. by vm_compute.
Defined.

(** C6 (as stated) fails: the single record of this input parses, and
    the run writes the header row alone, since [calc] raises
    [ZeroDivisionError] on the molecule without heavy atoms; and with
    [-c 0] the pool is refused before the output file is opened, so that
    not even the header is written. *)
Lemma output_rows_counterexample :
  let f := [u "[H][H]" ++ [LF]] in
  let a := parse_args Standin.no_flags in
  read_smi false f (sep a) (start_pos a) (nlines a)
  = ([(u "[H][H]", u "[H][H]")], Finished)
  /\ parsed (u "[H][H]", u "[H][H]") = true
  /\ out_file (main false 1 [] a f) = Some [header]
  /\ status (main false 1 [] a f) = Raised ZeroDivisionError
  /\ out_file (main false 1 [] (set_ncpu 0 a) f) = None.
Proof. split_and!; by vm_compute. Qed.

(** * Further properties of the reader *)

(** The loop only compares the index with the bounds: moving all three
    by the same amount changes nothing. *)
Lemma read_smi_loop_shift sep start_pos end_pos k lines : forall i,
  read_smi_loop sep (start_pos + k) (Z.add k <$> end_pos) (i + k) lines
  = read_smi_loop sep start_pos end_pos i lines.
Proof.
  induction lines as [|line rest IH]; intros i; simpl; [done|].
  assert ((start_pos + k <=? i + k) = (start_pos <=? i)) as ->.
  { destruct (Z.leb_spec (start_pos + k) (i + k)), (Z.leb_spec start_pos i);
      (done || lia). }
  assert (before_end (i + k) (Z.add k <$> end_pos) = before_end i end_pos) as ->.
  { destruct end_pos as [e|]; simpl; [|done].
    destruct (Z.ltb_spec (i + k) (k + e)), (Z.ltb_spec i e); (done || lia). }
  replace (i + k + 1) with (i + 1 + k) by lia. by rewrite IH.
Qed.

(** The lines before [start_pos] are passed over unread. *)
Lemma read_smi_loop_skip sep start_pos end_pos rest : forall pre i,
  i + Z.of_nat (length pre) <= start_pos ->
  read_smi_loop sep start_pos end_pos i (pre ++ rest)
  = read_smi_loop sep start_pos end_pos (i + Z.of_nat (length pre)) rest.
Proof.
  induction pre as [|line pre IH]; intros i Hlen.
  - simpl. by rewrite Z.add_0_r.
  - cbn [length] in *. rewrite Nat2Z.inj_succ in *. simpl.
    rewrite (proj2 (Z.leb_gt _ _)) by lia.
    rewrite IH by lia. f_equal. lia.
Qed.

(** X1. The lines before the window are never split nor inspected:
    whatever they hold, reading from line [p] of a file is reading from
    line [p - k] of the file without its first [k] lines. *)
Theorem read_smi_skips_lines_before_window gs pre rest sep p l :
  Z.of_nat (length pre) <= p - 1 ->
  read_smi gs (pre ++ rest) sep p l
  = read_smi gs rest sep (p - Z.of_nat (length pre)) l.
Proof.
  intros Hlen. unfold read_smi.
  rewrite read_smi_loop_skip by lia. simpl.
  rewrite <- (read_smi_loop_shift sep (p - Z.of_nat (length pre) - 1)
                _ (Z.of_nat (length pre)) rest 0).
  replace (p - Z.of_nat (length pre) - 1 + Z.of_nat (length pre)) with (p - 1)
    by lia.
  destruct l as [n|]; simpl; [|done].
  by replace (Z.of_nat (length pre) + (p - Z.of_nat (length pre) - 1 + n))
    with (p - 1 + n) by lia.
Qed.

Lemma read_smi_skips_lines_before_window_witness :
  Z.of_nat (length [[LF]; [TAB; LF]]) <= 3 - 1
  /\ read_smi true ([[LF]; [TAB; LF]] ++ Standin.five_lines) None 3 (Some 2)
     = read_smi true Standin.five_lines None 1 (Some 2)
  /\ read_smi true Standin.five_lines None 1 (Some 2)
     = ([(u "CCO", u "ethanol"); (u "c1ccccc1", u "benzene")],
        Raised RuntimeError).
Proof.
  split_and!; [by vm_compute | | by vm_compute].
  apply (read_smi_skips_lines_before_window true [[LF]; [TAB; LF]]
           Standin.five_lines None 3 (Some 2)).
  by vm_compute.
Defined.

(** The records of a window whose lines all give one. *)
Lemma read_smi_window_records gs f sep p l rs :
  1 <= p ->
  records_of sep (window_lines p l f) = ret rs ->
  (read_smi gs f sep p l).1 = rs.
Proof.
  intros Hp Hrs. unfold read_smi, window_lines in *.
  pose proof (read_smi_loop_window sep (p - 1)
                match l with Some n => Some (p - 1 + n) | None => None end
                f 0 rs) as Hloop.
  simpl in Hloop. rewrite Z.sub_0_r in Hloop.
  destruct l as [n|].
  - rewrite Z.max_l in Hloop by lia.
    replace (p - 1 + n - (p - 1)) with n in Hloop by lia.
    by rewrite (Hloop Hrs).
  - by rewrite (Hloop Hrs).
Qed.

Lemma records_of_app sep l1 l2 rs :
  records_of sep (l1 ++ l2) = ret rs ->
  exists rs1 rs2,
    records_of sep l1 = ret rs1 /\ records_of sep l2 = ret rs2
    /\ rs = rs1 ++ rs2.
Proof.
  revert rs. induction l1 as [|line l1 IH]; intros rs Hrs; simpl in *.
  - by exists [], rs.
  - destruct (line_record sep line) as [e|r]; [done|]. simpl in *.
    destruct (records_of sep (l1 ++ l2)) as [e|rs'] eqn:Hrest; [done|].
    simpl in Hrs. injection Hrs as <-.
    destruct (IH rs' eq_refl) as (rs1 & rs2 & -> & -> & ->).
    by exists (r :: rs1), rs2.
Qed.

(** X2. Consecutive windows tile the file: the records of the [n]
    lines from line [p], followed by the records of the window that
    starts at line [p + n], are the records of the one window from line
    [p] that covers both; no record is lost or read twice. *)
Theorem read_smi_windows_compose gs f sep p n l rs :
  1 <= p ->
  0 <= n ->
  (forall m, l = Some m -> 0 <= m) ->
  records_of sep (window_lines p (Z.add n <$> l) f) = ret rs ->
  (read_smi gs f sep p (Some n)).1 ++ (read_smi gs f sep (p + n) l).1 = rs
  /\ (read_smi gs f sep p (Z.add n <$> l)).1 = rs.
Proof.
  intros Hp Hn Hm Hrs. split; [|by apply read_smi_window_records].
  assert (window_lines p (Z.add n <$> l) f
          = window_lines p (Some n) f ++ window_lines (p + n) l f) as Hw.
  { unfold window_lines.
    replace (Z.to_nat (p + n - 1)) with (Z.to_nat (p - 1) + Z.to_nat n)%nat
      by lia.
    rewrite <- drop_drop. destruct l as [m|]; simpl.
    - specialize (Hm m eq_refl).
      replace (Z.to_nat (n + m)) with (Z.to_nat n + Z.to_nat m)%nat by lia.
      by rewrite take_take_drop.
    - by rewrite take_drop. }
  rewrite Hw in Hrs.
  destruct (records_of_app _ _ _ _ Hrs) as (rs1 & rs2 & H1 & H2 & ->).
  rewrite (read_smi_window_records gs f sep p (Some n) rs1) by done.
  by rewrite (read_smi_window_records gs f sep (p + n) l rs2) by (done || lia).
Qed.

Lemma read_smi_windows_compose_witness :
  1 <= 2 /\ 0 <= 2
  /\ (read_smi false Standin.five_lines None 2 (Some 2)).1
     ++ (read_smi false Standin.five_lines None (2 + 2) (Some 1)).1
     = [(u "c1ccccc1", u "benzene"); (u "CCO", u "spirit");
        (u "c1ccccc1", u "c1ccccc1")].
Proof.
  split_and!; [lia | lia |].
  apply (read_smi_windows_compose false Standin.five_lines None 2 2 (Some 1));
    [lia | lia | intros m [= <-]; lia | by vm_compute].
Defined.

Lemma read_smi_loop_at_most sep start_pos e lines : forall i,
  (length (read_smi_loop sep start_pos (Some e) i lines).1
   <= Z.to_nat (e - Z.max start_pos i))%nat.
Proof.
  induction lines as [|line rest IH]; intros i; simpl; [lia|].
  destruct (Z.leb_spec start_pos i).
  - destruct (Z.ltb_spec i e); [|simpl; lia].
    destruct (line_record sep line); [simpl; lia|].
    specialize (IH (i + 1)).
    destruct (read_smi_loop sep start_pos (Some e) (i + 1) rest). simpl in *. lia.
  - specialize (IH (i + 1)). lia.
Qed.

(** X3. A count of [n] lines bounds the records: whatever the file, the
    separator and the start line, the reader yields at most [n] records
    (none when [n] is negative), and never more than the file has
    lines. *)
Theorem read_smi_yields_at_most gs f sep p n :
  (length (read_smi gs f sep p (Some n)).1 <= Z.to_nat n)%nat
  /\ (length (read_smi gs f sep p (Some n)).1 <= length f)%nat.
Proof.
  unfold read_smi.
  pose proof (read_smi_loop_at_most sep (p - 1) (p - 1 + n) f 0) as Hn.
  pose proof (read_smi_loop_length sep (p - 1) (Some (p - 1 + n)) f 0) as Hf.
  destruct (read_smi_loop sep (p - 1) (Some (p - 1 + n)) 0 f). simpl in *. lia.
Qed.

(** A field made by the whitespace split: not empty, no whitespace. *)
Lemma line_record_ws_fields line r :
  line_record None line = ret r ->
  (rec_smi r <> [] /\ Forall (fun c => PyStr.isspace c = false) (rec_smi r))
  /\ (rec_name r <> [] /\ Forall (fun c => PyStr.isspace c = false) (rec_name r)).
Proof.
  unfold line_record. simpl.
  pose proof (split_ws_fields (PyStr.strip line)) as Hall.
  destruct (PyStr.split_ws (PyStr.strip line)) as [|a [|b items]]; simpl;
    [done | |]; intros [= <-]; unfold rec_smi, rec_name; simpl.
  - by inversion Hall.
  - inversion Hall as [|? ? Ha Hrest]. by inversion Hrest.
Qed.

Lemma read_smi_loop_ws_fields start_pos end_pos lines : forall i,
  Forall (fun r =>
            (rec_smi r <> [] /\ Forall (fun c => PyStr.isspace c = false) (rec_smi r))
            /\ (rec_name r <> []
                /\ Forall (fun c => PyStr.isspace c = false) (rec_name r)))
         (read_smi_loop None start_pos end_pos i lines).1.
Proof.
  induction lines as [|line rest IH]; intros i; simpl; [constructor|].
  destruct (start_pos <=? i); [|apply IH].
  destruct (before_end i end_pos); [|constructor].
  destruct (line_record None line) as [e|r] eqn:Hr; [constructor|].
  specialize (IH (i + 1)).
  destruct (read_smi_loop None start_pos end_pos (i + 1) rest). simpl in *.
  constructor; [by eapply line_record_ws_fields|done].
Qed.

(** X4. Under the default separator the structure and the identifier
    of every yielded record are non-empty and free of whitespace: no
    tab and no line break gets into a field, and [calc] is never given
    an empty structure. *)
Theorem read_smi_fields_without_whitespace gs f p l :
  Forall (fun r =>
            (rec_smi r <> [] /\ Forall (fun c => PyStr.isspace c = false) (rec_smi r))
            /\ (rec_name r <> []
                /\ Forall (fun c => PyStr.isspace c = false) (rec_name r)))
         (read_smi gs f None p l).1.
Proof.
  unfold read_smi.
  pose proof (read_smi_loop_ws_fields (p - 1)
                match l with Some n => Some (p - 1 + n) | None => None end
                f 0) as Hall.
  by destruct (read_smi_loop None (p - 1) _ 0 f).
Qed.

(** X5. With an empty separator ([-s ""]) the first line of the window
    already fails: [split] refuses the separator with [ValueError] and
    nothing is yielded. *)
Theorem read_smi_empty_separator gs f p l :
  1 <= p ->
  window_lines p l f <> [] ->
  read_smi gs f (Some []) p l = ([], Raised ValueError).
Proof.
  intros Hp Hw. unfold read_smi, window_lines in *.
  set (k := Z.to_nat (p - 1)) in *.
  assert (exists line post, drop k f = line :: post) as (line & post & Hdrop).
  { destruct (drop k f) as [|line post] eqn:Hd; [|by eauto].
    exfalso. apply Hw. destruct l; [apply take_nil|done]. }
  assert (length (take k f) = k) as Hlen.
  { rewrite length_take. apply Nat.min_l.
    destruct (decide (k <= length f)%nat) as [|Hgt]; [done|].
    rewrite drop_ge in Hdrop by lia. done. }
  rewrite <- (take_drop k f) at 1.
  rewrite read_smi_loop_skip by lia.
  rewrite Hlen, Hdrop. simpl.
  rewrite (proj2 (Z.leb_le _ _)) by lia.
  assert (before_end (0 + Z.of_nat k)
            match l with Some n => Some (p - 1 + n) | None => None end = true)
    as ->.
  { destruct l as [n|]; [|done]. simpl. apply Z.ltb_lt.
    rewrite Hdrop in Hw.
    destruct (Z.to_nat n) eqn:Hn; [done|]. lia. }
  done.
Qed.

Lemma read_smi_empty_separator_witness :
  1 <= 2
  /\ window_lines 2 (Some 3) Standin.five_lines <> []
  /\ read_smi true Standin.five_lines (Some []) 2 (Some 3)
     = ([], Raised ValueError).
Proof.
  split_and!; [lia | by vm_compute |].
  apply (read_smi_empty_separator true Standin.five_lines 2 (Some 3));
    [lia | by vm_compute].
Defined.

(** A split on a non-empty separator never leaves [items[0]] missing. *)
Lemma line_record_sep_returns c sep line :
  exists r, line_record (Some (c :: sep)) line = ret r.
Proof.
  unfold line_record. simpl.
  pose proof (split_sep_from_cons (c :: sep) 0 [] (PyStr.strip line)) as Hne.
  unfold PyStr.split_sep.
  destruct (PyStr.split_sep_from (c :: sep) 0 [] (PyStr.strip line))
    as [|a [|b items]]; [done | by eexists | by eexists].
Qed.

Lemma records_of_sep_returns c sep lines :
  exists rs,
    records_of (Some (c :: sep)) lines = ret rs /\ length rs = length lines.
Proof.
  induction lines as [|line lines (rs & Hrs & Hlen)]; simpl.
  - by exists [].
  - destruct (line_record_sep_returns c sep line) as [r ->]. rewrite Hrs.
    exists (r :: rs). simpl. by rewrite Hlen.
Qed.

(** X6. With an explicit, non-empty separator no line can make the
    reader fail, blank lines included: from a start line [p >= 1] it
    yields one record for each line of the window, and it ends without
    error when no line comes after the window. *)
Theorem read_smi_explicit_separator_total gs f c sep p l :
  1 <= p ->
  length (read_smi gs f (Some (c :: sep)) p l).1 = length (window_lines p l f)
  /\ records_of (Some (c :: sep)) (window_lines p l f)
     = ret (read_smi gs f (Some (c :: sep)) p l).1
  /\ (ends_in_window p l f = true ->
      (read_smi gs f (Some (c :: sep)) p l).2 = Finished).
Proof.
  intros Hp.
  destruct (records_of_sep_returns c sep (window_lines p l f)) as (rs & Hrs & Hlen).
  pose proof (read_smi_window_records gs f (Some (c :: sep)) p l rs Hp Hrs) as Hfst.
  rewrite Hfst. split_and!; [done | done |].
  intros Hends. unfold read_smi, window_lines, ends_in_window in *.
  pose proof (read_smi_loop_window (Some (c :: sep)) (p - 1)
                match l with Some n => Some (p - 1 + n) | None => None end
                f 0 rs) as Hloop.
  simpl in Hloop. rewrite Z.sub_0_r in Hloop.
  destruct l as [n|].
  - rewrite Z.max_l in Hloop by lia.
    replace (p - 1 + n - (p - 1)) with n in Hloop by lia.
    rewrite (Hloop Hrs). simpl. apply Nat.leb_le in Hends.
    by rewrite (proj2 (Nat.ltb_ge _ _)) by lia.
  - by rewrite (Hloop Hrs).
Qed.

Lemma read_smi_explicit_separator_total_witness :
  1 <= 1
  /\ read_smi true [u "CCO" ++ [TAB] ++ u "ethanol" ++ [LF]; [LF]; u "c1ccccc1" ++ [LF]]
       (Some [TAB]) 1 (Some 3)
     = ([(u "CCO", u "ethanol"); ([], []); (u "c1ccccc1", u "c1ccccc1")], Finished)
  /\ length (read_smi true
               [u "CCO" ++ [TAB] ++ u "ethanol" ++ [LF]; [LF]; u "c1ccccc1" ++ [LF]]
               (Some [TAB]) 1 (Some 3)).1
     = length (window_lines 1 (Some 3)
                 [u "CCO" ++ [TAB] ++ u "ethanol" ++ [LF]; [LF]; u "c1ccccc1" ++ [LF]]).
Proof.
  split_and!; [lia | by vm_compute |].
  apply (read_smi_explicit_separator_total true
           [u "CCO" ++ [TAB] ++ u "ethanol" ++ [LF]; [LF]; u "c1ccccc1" ++ [LF]]
           TAB [] 1 (Some 3)).
  lia.
Defined.

(** Whitespace at the ends of a text does not change its words. *)
Lemma split_ws_lstrip s :
  PyStr.split_ws (PyStr.lstrip s) = PyStr.split_ws s.
Proof.
  unfold PyStr.split_ws. induction s as [|c s IH]; simpl; [done|].
  destruct (PyStr.isspace c) eqn:Hc; [done|]. simpl. by rewrite Hc.
Qed.

Lemma split_ws_from_blank cur ws :
  blank ws ->
  PyStr.split_ws_from cur ws = match cur with [] => [] | _ => [reverse cur] end.
Proof.
  intros Hws. revert cur.
  induction Hws as [|c ws Hc _ IH]; intros cur; simpl; [done|].
  rewrite Hc. destruct cur; [apply IH|]. by rewrite IH.
Qed.

Lemma split_ws_from_app_blank ws s : forall cur,
  blank ws ->
  PyStr.split_ws_from cur (s ++ ws) = PyStr.split_ws_from cur s.
Proof.
  induction s as [|c s IH]; intros cur Hws; simpl.
  - by apply split_ws_from_blank.
  - destruct (PyStr.isspace c); [|by apply IH].
    destruct cur; by rewrite IH.
Qed.

Lemma lstrip_decompose s :
  exists ws, blank ws /\ s = ws ++ PyStr.lstrip s.
Proof.
  induction s as [|c s (ws & Hws & Hs)]; simpl.
  - exists []. split; [constructor|done].
  - destruct (PyStr.isspace c) eqn:Hc.
    + exists (c :: ws). split; [by constructor|]. simpl. by rewrite <- Hs.
    + exists []. split; [constructor|done].
Qed.

Lemma rstrip_decompose s :
  exists ws, blank ws /\ s = PyStr.rstrip s ++ ws.
Proof.
  destruct (lstrip_decompose (reverse s)) as (ws & Hws & Hs).
  exists (reverse ws). split; [by apply Forall_reverse|].
  unfold PyStr.rstrip. rewrite <- reverse_app, <- Hs.
  by rewrite reverse_involutive.
Qed.

Lemma split_ws_strip s :
  PyStr.split_ws (PyStr.strip s) = PyStr.split_ws s.
Proof.
  unfold PyStr.strip. rewrite <- (split_ws_lstrip s).
  destruct (rstrip_decompose (PyStr.lstrip s)) as (ws & Hws & Hs).
  rewrite Hs at 2. unfold PyStr.split_ws.
  by rewrite split_ws_from_app_blank.
Qed.

(** X7. Under the default separator the record of a line is made of
    its first one or two words alone: whitespace put before or after the
    line (indentation, trailing blanks, the line terminator) does not
    change what the reader yields or raises for it. *)
Theorem line_record_ignores_outer_whitespace before line after :
  blank before ->
  blank after ->
  line_record None (before ++ line ++ after) = line_record None line
  /\ line_record None line = items_record (PyStr.split_ws line).
Proof.
  intros Hb Ha.
  assert (forall s, line_record None s = items_record (PyStr.split_ws s)) as Hrec.
  { intros s. unfold line_record. simpl. by rewrite split_ws_strip. }
  split; [|done]. rewrite !Hrec. f_equal.
  assert (forall ws s, blank ws -> PyStr.lstrip (ws ++ s) = PyStr.lstrip s) as Hl.
  { intros ws s Hws. induction Hws as [|c ws Hc _ IH]; simpl; [done|].
    by rewrite Hc. }
  rewrite <- (split_ws_lstrip (before ++ line ++ after)), Hl by done.
  rewrite split_ws_lstrip. unfold PyStr.split_ws.
  by apply split_ws_from_app_blank.
Qed.

Lemma line_record_ignores_outer_whitespace_witness :
  blank [TAB; 32%N]
  /\ blank [32%N; CR; LF]
  /\ line_record None ([TAB; 32%N] ++ u "CCO ethanol" ++ [32%N; CR; LF])
     = ret (u "CCO", u "ethanol").
Proof.
  assert (blank [TAB; 32%N]) as Hb by (by repeat constructor).
  assert (blank [32%N; CR; LF]) as Ha by (by repeat constructor).
  split_and!; [done | done |].
  rewrite (proj1 (line_record_ignores_outer_whitespace
                    [TAB; 32%N] (u "CCO ethanol") [32%N; CR; LF] Hb Ha)).
  by vm_compute.
Defined.

(** * Further properties of the dispatcher *)

Section MainMore.
Context `{Toolkit}.

(** The rows and the end of the loop of line 96 depend neither on
    [verbose] nor on the number of the first result. *)
Lemma main_loop_rows_status verbose verbose' results : forall i i',
  (main_loop verbose i results).1.1 = (main_loop verbose' i' results).1.1
  /\ (main_loop verbose i results).2 = (main_loop verbose' i' results).2.
Proof.
  induction results as [|[e|items] results IH]; intros i i'; simpl; [done..|].
  pose proof (write_items_rows verbose items i) as Hw.
  pose proof (write_items_rows verbose' items i') as Hw'.
  destruct (write_items verbose i items) as [rows1 msgs1].
  destruct (write_items verbose' i' items) as [rows1' msgs1'].
  destruct (IH (i + Z.of_nat (length items)) (i' + Z.of_nat (length items)))
    as [Hrows Hend].
  destruct (main_loop verbose _ results) as [[rows2 msgs2] e2].
  destruct (main_loop verbose' _ results) as [[rows2' msgs2'] e2'].
  simpl in *. by subst.
Qed.

Lemma write_items_quiet items : forall i, (write_items false i items).2 = [].
Proof.
  induction items as [|res items IH]; intros i; simpl; [done|].
  specialize (IH (i + 1)). destruct (write_items false (i + 1) items).
  simpl in *. by rewrite IH.
Qed.

Lemma main_loop_quiet results : forall i, (main_loop false i results).1.2 = [].
Proof.
  induction results as [|[e|items] results IH]; intros i; simpl; [done..|].
  pose proof (write_items_quiet items i) as Hw.
  destruct (write_items false i items) as [rows1 msgs1].
  specialize (IH (i + Z.of_nat (length items))).
  destruct (main_loop false _ results) as [[rows2 msgs2] e2].
  simpl in *. by subst.
Qed.

(** The only exception of [calc], over a total toolkit. *)
Lemma calc_raises_only smi name e :
  (calc smi name).1 = inl e -> e = ZeroDivisionError.
Proof.
  unfold calc. destruct (MolFromSmiles smi) as [m|]; [|done].
  destruct (CalcCrippenDescriptors m). simpl.
  unfold fmf_of, py_truediv. destruct (_ =? 0); simpl; [|done].
  by intros [= <-].
Qed.

Lemma mapstar_raises_only chunk e :
  mapstar chunk = inl e -> e = ZeroDivisionError.
Proof.
  induction chunk as [|r chunk IH]; simpl; [done|].
  destruct (calc_mp r).1 as [e'|x] eqn:Hr; simpl.
  - intros [= <-]. by eapply calc_raises_only.
  - destruct (mapstar chunk) as [e'|xs]; simpl; [|done].
    intros [= <-]. by apply IH.
Qed.

Lemma mapstar_raises chunk :
  Exists (fun r => exists e, (calc_mp r).1 = inl e) chunk ->
  mapstar chunk = inl ZeroDivisionError.
Proof.
  induction 1 as [r chunk [e Hr]|r chunk _ IH]; simpl.
  - rewrite Hr. simpl. f_equal. by eapply calc_raises_only.
  - destruct (calc_mp r).1 as [e|x] eqn:Hr; simpl.
    + f_equal. by eapply calc_raises_only.
    + by rewrite IH.
Qed.

(** A record on which [calc] raises ends the loop with that exception,
    whatever comes after its batch. *)
Lemma main_loop_calc_raises verbose chunks more : forall i,
  Exists (fun r => exists e, (calc_mp r).1 = inl e) (concat chunks) ->
  (main_loop verbose i ((run_task <$> (Batch <$> chunks)) ++ more)).2
  = Raised ZeroDivisionError.
Proof.
  induction chunks as [|chunk chunks IH]; intros i Hex.
  - by apply Exists_nil in Hex.
  - cbn [concat] in Hex. rewrite !fmap_cons. cbn [app main_loop run_task].
    destruct (mapstar chunk) as [e|items] eqn:Hchunk.
    + by rewrite (mapstar_raises_only _ _ Hchunk).
    + apply Exists_app in Hex as [Hex|Hex].
      * by rewrite (mapstar_raises _ Hex) in Hchunk.
      * specialize (IH (i + Z.of_nat (length items)) Hex).
        destruct (write_items verbose i items).
        destruct (main_loop verbose _ _) as [[rows2 msgs2] e2].
        by simpl in *.
Qed.



(** The progress texts of a stretch of results: one for each multiple
    of 1000 among the numbers [i + 1] to [i + length items]. *)
Lemma write_items_progress items : forall i,
  0 <= i ->
  (write_items true i items).2
  = (fun j => progress_message (1000 * Z.of_nat j))
    <$> seq (S (Z.to_nat (i / 1000)))
            (Z.to_nat ((i + Z.of_nat (length items)) / 1000) - Z.to_nat (i / 1000)).
Proof.
  induction items as [|res items IH]; intros i Hi.
  - simpl. rewrite Z.add_0_r, Nat.sub_diag. done.
  - cbn [write_items length]. specialize (IH (i + 1) ltac:(lia)).
    destruct (write_items true (i + 1) items) as [rows msgs]. simpl in IH.
    cbn [snd andb]. rewrite IH.
    replace (i + Z.of_nat (S (length items)))
      with (i + 1 + Z.of_nat (length items)) by lia.
    set (t := (i + 1 + Z.of_nat (length items)) / 1000).
    assert ((i + 1) / 1000 <= t) as Hmono
      by (apply Z.div_le_mono; lia).
    assert (0 <= i / 1000) as Hq by (apply Z.div_pos; lia).
    destruct (Z.eqb_spec ((i + 1) `mod` 1000) 0) as [Hmod|Hmod].
    + assert ((i + 1) / 1000 = i / 1000 + 1) as Hdiv.
      { pose proof (Z.div_mod (i + 1) 1000 ltac:(lia)).
        pose proof (Z.div_mod i 1000 ltac:(lia)).
        pose proof (Z.mod_pos_bound i 1000 ltac:(lia)). lia. }
      rewrite Hdiv in *.
      replace (Z.to_nat t - Z.to_nat (i / 1000))%nat
        with (S (Z.to_nat t - Z.to_nat (i / 1000 + 1)))%nat by lia.
      cbn [seq fmap list_fmap app].
      replace (Z.to_nat (i / 1000 + 1)) with (S (Z.to_nat (i / 1000))) by lia.
      f_equal. f_equal.
      pose proof (Z.div_mod (i + 1) 1000 ltac:(lia)). lia.
    + assert ((i + 1) / 1000 = i / 1000) as Hdiv.
      { pose proof (Z.div_mod (i + 1) 1000 ltac:(lia)).
        pose proof (Z.div_mod i 1000 ltac:(lia)).
        pose proof (Z.mod_pos_bound i 1000 ltac:(lia)).
        pose proof (Z.mod_pos_bound (i + 1) 1000 ltac:(lia)). lia. }
      rewrite Hdiv. done.
Qed.

Lemma main_loop_returns_progress chunks : forall i,
  0 <= i ->
  Forall (fun r => exists x, (calc_mp r).1 = ret x) (concat chunks) ->
  (main_loop true i (run_task <$> (Batch <$> chunks))).1.2
  = (fun j => progress_message (1000 * Z.of_nat j))
    <$> seq (S (Z.to_nat (i / 1000)))
            (Z.to_nat ((i + Z.of_nat (length (concat chunks))) / 1000)
             - Z.to_nat (i / 1000)).
Proof.
  induction chunks as [|chunk chunks IH]; intros i Hi Hall.
  - simpl. by rewrite Z.add_0_r, Nat.sub_diag.
  - cbn [concat] in *. apply Forall_app in Hall as [Hchunk Hrest].
    destruct (mapstar_returns _ Hchunk) as (xs & Hm & Hxs).
    rewrite !fmap_cons. cbn [main_loop run_task]. rewrite Hm. unfold ret.
    pose proof (write_items_progress xs i Hi) as Hw.
    specialize (IH (i + Z.of_nat (length xs)) ltac:(lia) Hrest).
    destruct (write_items true i xs) as [rows1 msgs1].
    destruct (main_loop true _ _) as [[rows2 msgs2] e]. simpl in *.
    rewrite Hw, IH, <- fmap_app.
    rewrite length_app, (Forall2_length _ _ _ Hxs).
    rewrite Nat2Z.inj_add, Z.add_assoc.
    set (a := i / 1000). set (b := (i + Z.of_nat (length xs)) / 1000).
    set (c := (i + Z.of_nat (length xs) + Z.of_nat (length (concat chunks))) / 1000).
    assert (a <= b) by (apply Z.div_le_mono; lia).
    assert (b <= c) by (apply Z.div_le_mono; lia).
    assert (0 <= a) by (apply Z.div_pos; lia).
    f_equal.
    replace (Z.to_nat c - Z.to_nat a)%nat
      with ((Z.to_nat b - Z.to_nat a) + (Z.to_nat c - Z.to_nat b))%nat by lia.
    rewrite seq_app. do 2 f_equal. lia.
Qed.

End MainMore.

(** X8. [-v] changes the progress texts only: two runs that differ in
    [verbose] alone write the same output file and end the same way, and
    without [-v] no progress text is written. *)
Theorem main_verbose_only_progress `{Toolkit} gs cpu_count sched a a' f :
  sep a = sep a' ->
  start_pos a = start_pos a' ->
  nlines a = nlines a' ->
  ncpu a = ncpu a' ->
  out_file (main gs cpu_count sched a f) = out_file (main gs cpu_count sched a' f)
  /\ status (main gs cpu_count sched a f) = status (main gs cpu_count sched a' f)
  /\ (verbose a = false -> progress (main gs cpu_count sched a f) = []).
Proof.
  intros Hsep Hstart Hn Hc. unfold main. rewrite <- Hsep, <- Hstart, <- Hn, <- Hc.
  destruct (Z.min (ncpu a) cpu_count <? 1); [done|].
  set (results := Pool.imap _ _ _ _).
  destruct (main_loop_rows_status (verbose a) (verbose a') results 0 0)
    as [Hrows Hend].
  pose proof (main_loop_quiet results 0) as Hquiet.
  destruct (verbose a) eqn:Hv;
    destruct (main_loop _ 0 results) as [[rows msgs] e] eqn:Hl;
    destruct (main_loop (verbose a') 0 results) as [[rows' msgs'] e'];
    simpl in *; subst; by split_and!.
Qed.

Lemma main_verbose_only_progress_witness :
  let a := parse_args Standin.no_flags in
  let a' := parse_args {| opt_sep := None; opt_startpos := None; opt_lines := None;
                          opt_ncpu := None; opt_verbose := true |} in
  sep a = sep a' /\ start_pos a = start_pos a' /\ nlines a = nlines a'
  /\ ncpu a = ncpu a'
  /\ out_file (main false 2 [] a Standin.five_lines)
     = out_file (main false 2 [] a' Standin.five_lines).
Proof.
  split_and!; [done..|].
  apply (main_verbose_only_progress false 2 [] (parse_args Standin.no_flags)
           (parse_args {| opt_sep := None; opt_startpos := None; opt_lines := None;
                          opt_ncpu := None; opt_verbose := true |})
           Standin.five_lines); done.
Defined.

(** X9. In a verbose run in which nothing raises, the progress texts
    are exactly "1000 molecules passed", "2000 molecules passed", ... one
    for each full thousand of records read, whether their structures
    parse or not, each text led by a carriage return. *)
Theorem main_progress_every_thousand `{Toolkit} gs cpu_count sched a f rs :
  1 <= ncpu a ->
  1 <= cpu_count ->
  verbose a = true ->
  read_smi gs f (sep a) (start_pos a) (nlines a) = (rs, Finished) ->
  (forall r m, r ∈ rs -> MolFromSmiles (rec_smi r) = Some m ->
               GetNumHeavyAtoms m <> 0) ->
  progress (main gs cpu_count sched a f)
  = (fun j => [CR] ++ PyStr.of_int (1000 * Z.of_nat j) ++ u " molecules passed")
    <$> seq 1 (length rs / 1000).
Proof.
  intros Hn Hc Hv Hread Hheavy.
  rewrite main_sequential, Hread, Hv by done. unfold task_batches. simpl.
  destruct (get_tasks_finished chunksize rs chunksize []) as (chunks & -> & Hcat).
  rewrite reverse_nil in Hcat. simpl in Hcat. subst rs.
  assert (Forall (fun r => exists x, (calc_mp r).1 = ret x) (concat chunks))
    as Hret.
  { apply Forall_forall. intros r Hr.
    destruct (calc_mp_returns r) as (x & Hx & _); [|by exists x].
    intros m. by apply Hheavy. }
  pose proof (main_loop_returns_progress chunks 0 ltac:(lia) Hret) as Hmsgs.
  assert (forall n : nat,
             Z.to_nat ((0 + Z.of_nat n) `div` 1000) = (n / 1000)%nat) as Hdiv.
  { intros n. rewrite Z.add_0_l, <- (Nat2Z.id (n / 1000)).
    f_equal. by rewrite Nat2Z.inj_div. }
  rewrite Hdiv in Hmsgs. change (Z.to_nat (0 `div` 1000)) with 0%nat in Hmsgs.
  rewrite Nat.sub_0_r in Hmsgs.
  destruct (main_loop true 0 _) as [[rows msgs] e].
  cbn [progress fst snd] in *. by rewrite Hmsgs.
Qed.

Lemma main_progress_every_thousand_witness :
  let a := parse_args {| opt_sep := None; opt_startpos := None; opt_lines := None;
                         opt_ncpu := Some 2; opt_verbose := true |} in
  let f := concat (replicate 500 (take 4 Standin.five_lines)) in
  1 <= ncpu a /\ 1 <= 4 /\ verbose a = true
  /\ length (read_smi false f (sep a) (start_pos a) (nlines a)).1 = 2000%nat
  /\ progress (main false 4 [1; 0]%nat a f)
     = [[CR] ++ u "1000 molecules passed"; [CR] ++ u "2000 molecules passed"].
Proof.
  split_and!; [by vm_compute | lia | done | by vm_compute |].
  rewrite (main_progress_every_thousand false 4 [1; 0]%nat
             (parse_args {| opt_sep := None; opt_startpos := None;
                            opt_lines := None; opt_ncpu := Some 2;
                            opt_verbose := true |})
             (concat (replicate 500 (take 4 Standin.five_lines)))
             (concat (replicate 500
                        [(u "CCO", u "ethanol"); (u "c1ccccc1", u "benzene");
                         (u "CCO", u "spirit"); (u "c1ccccc1", u "c1ccccc1")]))).
  - by vm_compute.
  - by vm_compute.
  - lia.
  - done.
  - by vm_compute.
  - intros r m Hr Hm. revert Hm.
    apply list_elem_of_In, in_concat in Hr as (chunk & Hchunk & Hr).
    apply list_elem_of_In, elem_of_replicate in Hchunk as [-> _].
    apply list_elem_of_In in Hr.
    rewrite !elem_of_cons, elem_of_nil in Hr.
    destruct Hr as [-> | [-> | [-> | [-> | []]]]]; vm_compute;
      intros [= <-]; by vm_compute.
Defined.

(** X10. One parsed molecule without heavy atoms anywhere in the
    records read is fatal to the whole run: it ends with
    [ZeroDivisionError] (the header has been written). *)
Theorem main_zero_heavy_atoms_fatal `{Toolkit} gs cpu_count sched a f rs r m :
  1 <= ncpu a ->
  1 <= cpu_count ->
  read_smi gs f (sep a) (start_pos a) (nlines a) = (rs, Finished) ->
  r ∈ rs ->
  MolFromSmiles (rec_smi r) = Some m ->
  GetNumHeavyAtoms m = 0 ->
  status (main gs cpu_count sched a f) = Raised ZeroDivisionError
  /\ exists rows, out_file (main gs cpu_count sched a f) = Some (header :: rows).
Proof.
  intros Hn Hc Hread Hr Hm Hz.
  rewrite main_sequential, Hread by done. unfold task_batches. simpl.
  destruct (get_tasks_finished chunksize rs chunksize []) as (chunks & -> & Hcat).
  rewrite reverse_nil in Hcat. simpl in Hcat. subst rs.
  assert (Exists (fun r => exists e, (calc_mp r).1 = inl e) (concat chunks))
    as Hex.
  { apply Exists_exists. exists r. split; [done|].
    exists ZeroDivisionError. unfold calc_mp, rec_smi in *.
    by rewrite (calc_parsed _ _ _ Hm), (fmf_of_no_heavy _ Hz). }
  pose proof (main_loop_calc_raises (verbose a) chunks [] 0 Hex) as Hend.
  rewrite app_nil_r in Hend.
  destruct (main_loop (verbose a) 0 _) as [[rows msgs] e]. simpl in *.
  split; [done|by exists rows].
Qed.

Lemma main_zero_heavy_atoms_fatal_witness :
  let a := parse_args Standin.no_flags in
  let f := take 2 Standin.five_lines ++ [u "[H][H]" ++ [LF]]
           ++ drop 2 Standin.five_lines in
  1 <= ncpu a /\ 1 <= 4
  /\ (u "[H][H]", u "[H][H]") ∈ (read_smi false f (sep a) (start_pos a) (nlines a)).1
  /\ status (main false 4 [] a f) = Raised ZeroDivisionError.
Proof.
  split_and!; [by vm_compute | lia | |].
  - vm_compute. do 2 apply list_elem_of_further. apply list_elem_of_here.
  - apply (@main_zero_heavy_atoms_fatal _ Standin.toolkit
             false 4 [] (parse_args Standin.no_flags)
             (take 2 Standin.five_lines ++ [u "[H][H]" ++ [LF]]
              ++ drop 2 Standin.five_lines)
             [(u "CCO", u "ethanol"); (u "c1ccccc1", u "benzene");
              (u "[H][H]", u "[H][H]");
              (u "CCO", u "spirit"); (u "c1ccccc1", u "c1ccccc1");
              (u "C1CC", u "broken")]
             (u "[H][H]", u "[H][H]") Standin.hydrogen);
      [by vm_compute | lia | by vm_compute | | by vm_compute | by vm_compute].
    do 2 apply list_elem_of_further. apply list_elem_of_here.
Defined.



(** * The end of the iteration and the shape of the rows *)

Lemma line_record_errors sep line e :
  line_record sep line = inl e -> e = IndexError \/ e = ValueError.
Proof.
  unfold line_record. destruct sep as [[|c sep]|]; simpl.
  - intros [= <-]. by right.
  - destruct (PyStr.split_sep (c :: sep) (PyStr.strip line)) as [|a [|b items]];
      simpl; intros [= <-]; by left.
  - destruct (PyStr.split_ws (PyStr.strip line)) as [|a [|b items]];
      simpl; intros [= <-]; by left.
Qed.

Lemma line_record_not_stop sep line e :
  line_record sep line = inl e -> e <> StopIteration.
Proof. by intros [-> | ->]%line_record_errors. Qed.

(** The body leaves by [raise StopIteration] only at a line that is
    neither before the window nor in it. *)
Lemma read_smi_loop_no_stop sep start_pos e lines : forall i,
  i + Z.of_nat (length lines) <= e \/ i + Z.of_nat (length lines) <= start_pos ->
  (read_smi_loop sep start_pos (Some e) i lines).2 <> Raised StopIteration.
Proof.
  induction lines as [|line rest IH]; intros i Hlen; [done|].
  cbn [length] in Hlen. rewrite Nat2Z.inj_succ in Hlen. simpl.
  destruct (Z.leb_spec start_pos i).
  - destruct (Z.ltb_spec i e); [|lia].
    destruct (line_record sep line) as [err|r] eqn:Hr.
    + simpl. intros [= ->]. by eapply line_record_not_stop.
    + specialize (IH (i + 1) ltac:(lia)).
      by destruct (read_smi_loop sep start_pos (Some e) (i + 1) rest).
  - apply IH. lia.
Qed.

Lemma read_smi_loop_no_stop_inf sep start_pos lines : forall i,
  (read_smi_loop sep start_pos None i lines).2 <> Raised StopIteration.
Proof.
  induction lines as [|line rest IH]; intros i; [done|]. simpl.
  destruct (start_pos <=? i); [|apply IH].
  destruct (line_record sep line) as [err|r] eqn:Hr.
  - simpl. intros [= ->]. by eapply line_record_not_stop.
  - specialize (IH (i + 1)).
    by destruct (read_smi_loop sep start_pos None (i + 1) rest).
Qed.

(** X12. The change of PEP 479 shows only when a line comes after the
    window: for a start line [p >= 1] and a file that ends inside the
    window (always so without [-l]), the reader yields and ends the same
    with and without [generator_stop], whatever the lines hold, and it
    never ends with [RuntimeError]. *)
Theorem read_smi_generator_stop_irrelevant f sep p l :
  1 <= p ->
  ends_in_window p l f = true ->
  read_smi true f sep p l = read_smi false f sep p l
  /\ (read_smi true f sep p l).2 <> Raised RuntimeError.
Proof.
  intros Hp Hends. unfold read_smi, ends_in_window in *.
  assert ((read_smi_loop sep (p - 1)
             match l with Some n => Some (p - 1 + n) | None => None end 0 f).2
          <> Raised StopIteration) as Hstop.
  { destruct l as [n|]; [|apply read_smi_loop_no_stop_inf].
    apply read_smi_loop_no_stop. apply Nat.leb_le in Hends. lia. }
  assert (forall e, (read_smi_loop sep (p - 1)
             match l with Some n => Some (p - 1 + n) | None => None end 0 f).2
          = Raised e -> e <> RuntimeError) as Hrun.
  { clear. generalize 0 as i.
    induction f as [|line rest IH]; intros i e; simpl; [done|].
    destruct (_ <=? _); [|apply IH].
    destruct (before_end _ _); [|by intros [= <-]].
    destruct (line_record sep line) as [err|r] eqn:Hr.
    - simpl. intros [= <-]. by apply line_record_errors in Hr as [-> | ->].
    - specialize (IH (i + 1) e).
      by destruct (read_smi_loop sep _ _ (i + 1) rest). }
  destruct (read_smi_loop sep (p - 1) _ 0 f) as [rs [|e]]; simpl in *; [done|].
  destruct e; try done. by destruct (Hrun RuntimeError eq_refl).
Qed.

Lemma read_smi_generator_stop_irrelevant_witness :
  1 <= 4
  /\ ends_in_window 4 (Some 2) Standin.five_lines = true
  /\ read_smi true Standin.five_lines None 4 (Some 2)
     = read_smi false Standin.five_lines None 4 (Some 2)
  /\ read_smi false Standin.five_lines None 4 (Some 2)
     = ([(u "c1ccccc1", u "c1ccccc1"); (u "C1CC", u "broken")], Finished).
Proof.
  split_and!; [lia | by vm_compute | | by vm_compute].
  apply (read_smi_generator_stop_irrelevant Standin.five_lines None 4 (Some 2));
    [lia | by vm_compute].
Defined.

(** The text of an integer holds a minus sign and digits only. *)
Lemma of_uint_chars d :
  Forall (fun c => (45 <= c)%N) (u (NilEmpty.string_of_uint d)).
Proof.
  unfold u. induction d; simpl; constructor; (done || by vm_compute).
Qed.

Lemma of_int_chars z : Forall (fun c => (45 <= c)%N) (PyStr.of_int z).
Proof.
  unfold PyStr.of_int, NilZero.string_of_int, NilZero.string_of_uint.
  destruct (Z.to_int z) as [d|d].
  - destruct d; try apply of_uint_chars.
    unfold u. simpl. by repeat constructor.
  - unfold u. simpl. constructor; [by vm_compute|].
    destruct d; try apply (of_uint_chars).
    simpl. by repeat constructor.
Qed.

Lemma count_occ_low (s : str) (c : char) :
  Forall (fun d => (45 <= d)%N) s -> (c < 45)%N -> count_occ N.eq_dec s c = 0%nat.
Proof.
  intros Hall Hc. apply count_occ_not_In. intros Hin.
  rewrite Forall_forall in Hall. apply list_elem_of_In, Hall in Hin. lia.
Qed.

(** The separators counted in a joined text whose parts hold none. *)
Lemma count_occ_join (parts : list str) (c : char) :
  Forall (fun p => count_occ N.eq_dec p c = 0%nat) parts ->
  count_occ N.eq_dec (PyStr.join [TAB] parts) c
  = if decide (c = TAB) then (length parts - 1)%nat else 0%nat.
Proof.
  induction 1 as [|p parts Hp Hall IH]; [by case_decide|].
  destruct parts as [|q parts].
  - simpl. rewrite Hp. by case_decide.
  - change (PyStr.join [TAB] (p :: q :: parts))
      with (p ++ [TAB] ++ PyStr.join [TAB] (q :: parts)).
    unfold str, char in *. rewrite !count_occ_app, Hp, IH.
    cbn [count_occ length].
    destruct (N.eq_dec TAB c) as [Heq|Hne]; case_decide as Hd;
      [lia | by destruct Hd | by destruct Hne | lia].
Qed.

(** X13. A row of the output is one line of thirteen columns, like the
    header: for a record read under the default separator whose
    structure parses to a molecule with a heavy atom, and floats whose
    text holds no tab and no line break, the row written holds exactly
    twelve tabs, as the header does, and exactly one line break, at its
    end. *)
Theorem row_has_thirteen_columns `{Toolkit} gs f p l r m :
  (forall x, (TAB ∉ str_float x) /\ (LF ∉ str_float x)) ->
  r ∈ (read_smi gs f None p l).1 ->
  MolFromSmiles (rec_smi r) = Some m ->
  GetNumHeavyAtoms m <> 0 ->
  exists t,
    (calc_mp r).1 = ret (Some t)
    /\ count_occ N.eq_dec (row t) TAB = 12%nat
    /\ count_occ N.eq_dec header TAB = 12%nat
    /\ count_occ N.eq_dec (row t) LF = 1%nat
    /\ last (row t) = Some LF.
Proof.
  intros Hfloat Hr Hm Hz.
  assert (PyStr.isspace TAB = true /\ PyStr.isspace LF = true) as [Htab Hlf]
    by done.
  assert ((TAB ∉ rec_name r) /\ (LF ∉ rec_name r)) as [Hnt Hnl].
  { unfold read_smi in Hr.
    pose proof (read_smi_loop_ws_fields (p - 1)
                  match l with Some n => Some (p - 1 + n) | None => None end
                  f 0) as Hall.
    destruct (read_smi_loop None (p - 1) _ 0 f) as [rs e]. simpl in *.
    rewrite Forall_forall in Hall.
    destruct (Hall r Hr) as (_ & _ & Hname). rewrite Forall_forall in Hname.
    split; intros Hin; apply Hname in Hin; congruence. }
  unfold calc_mp, rec_smi, rec_name in *.
  rewrite (calc_parsed _ _ _ Hm), (fmf_of_heavy _ Hz).
  eexists. split; [reflexivity|].
  assert (forall c, c = TAB \/ c = LF ->
            forall v : value,
              (match v with VStr s => s = r.2 | _ => True end) ->
              count_occ N.eq_dec (str_value v) c = 0%nat) as Hval.
  { intros c Hc [s|z|x] Hv; simpl.
    - subst s. apply count_occ_not_In. rewrite <- list_elem_of_In.
      by destruct Hc as [-> | ->].
    - apply count_occ_low; [apply of_int_chars|].
      destruct Hc as [-> | ->]; by vm_compute.
    - apply count_occ_not_In. rewrite <- list_elem_of_In.
      destruct (Hfloat x). by destruct Hc as [-> | ->]. }
  unfold row. rewrite !count_occ_app, !count_occ_join, last_snoc.
  - split_and!; [by vm_compute | by vm_compute | by vm_compute | done].
  - repeat constructor; apply Hval; auto.
  - repeat constructor; apply Hval; auto.
Qed.

Lemma row_has_thirteen_columns_witness :
  (forall x : Z, (TAB ∉ PyStr.of_int x ++ u "e-06")
                 /\ (LF ∉ PyStr.of_int x ++ u "e-06"))
  /\ (u "CCO", u "spirit") ∈ (read_smi false Standin.five_lines None 3 (Some 1)).1
  /\ exists t,
       (calc_mp (u "CCO", u "spirit")).1 = ret (Some t)
       /\ count_occ N.eq_dec (row t) TAB = 12%nat
       /\ count_occ N.eq_dec (row t) LF = 1%nat.
Proof.
  assert (forall x : Z,
             (TAB ∉ PyStr.of_int x ++ u "e-06")
             /\ (LF ∉ PyStr.of_int x ++ u "e-06"))
    as Hfloat.
  { intros x.
    assert (Forall (fun c => (45 <= c)%N) (PyStr.of_int x ++ u "e-06")) as Hall.
    { apply Forall_app. split; [apply of_int_chars|].
      by repeat constructor. }
    rewrite Forall_forall in Hall.
    split; intros Hin; apply Hall in Hin; by vm_compute in Hin. }
  assert ((u "CCO", u "spirit")
          ∈ (read_smi false Standin.five_lines None 3 (Some 1)).1) as Hin.
  { vm_compute. apply list_elem_of_here. }
  split_and!; [exact Hfloat | exact Hin |].
  destruct (@row_has_thirteen_columns _ Standin.toolkit false Standin.five_lines
              3 (Some 1) (u "CCO", u "spirit") Standin.ethanol Hfloat Hin)
    as (t & Hcalc & Htab & _ & Hlf & _); [by vm_compute | by vm_compute |].
  exists t. by split_and!.
Defined.

(** * The default start line and the end by [StopIteration] *)

Lemma read_smi_loop_start_below sep end_pos lines : forall i,
  0 <= i ->
  read_smi_loop sep (-1) end_pos i lines = read_smi_loop sep 0 end_pos i lines.
Proof.
  induction lines as [|line rest IH]; intros i Hi; simpl; [done|].
  rewrite !(proj2 (Z.leb_le _ _)) by lia.
  destruct (before_end i end_pos); [|done].
  destruct (line_record sep line); [done|].
  by rewrite IH by lia.
Qed.

(** X14. What the default of [-p/--startpos] does: a run without [-p]
    and without [-l] reads as [-p 1] does, but a run without [-p] and
    with [-l n] reads as [-p 1 -l (n - 1)] does, one line short; this
    holds for the records yielded and for the way the iteration ends,
    on every file and separator. *)
Theorem read_smi_default_start gs f sep :
  read_smi gs f sep (start_pos (parse_args
     {| opt_sep := sep; opt_startpos := None; opt_lines := None;
        opt_ncpu := None; opt_verbose := false |})) None
  = read_smi gs f sep 1 None
  /\ forall n,
       read_smi gs f sep (start_pos (parse_args
          {| opt_sep := sep; opt_startpos := None; opt_lines := Some n;
             opt_ncpu := None; opt_verbose := false |})) (Some n)
       = read_smi gs f sep 1 (Some (n - 1)).
Proof.
  unfold read_smi. simpl. unfold startpos_default.
  change (0 - 1) with (-1). change (1 - 1) with 0. split.
  - by rewrite read_smi_loop_start_below.
  - intros n. rewrite read_smi_loop_start_below by done.
    by replace (0 + (n - 1)) with (-1 + n) by lia.
Qed.



